(** * temp-mon: the temperature resolution pipeline and its poll supervisor

    A shallow embedding of [src/main.ts]: the CPU temperature resolver
    [getCpuTemperature], the GPU enumerator [getGpuTemperatures], the
    reporting job [logSysTemperatures] and the supervising loop [main].

    JavaScript numbers are IEEE-754 binary64 values; they are modelled by the
    standard library's executable specification of binary floating point
    ([spec_float], precision 53, exponent bound 1024), so that every
    conversion of the program can be evaluated on concrete sensor readings. *)

From Stdlib Require Import ZArith NArith List String Ascii Bool Lia.
From Stdlib Require Import Floats.SpecFloat.
From Stdlib Require Import Sorting.Permutation.
Import ListNotations.

Local Open Scope string_scope.
Local Open Scope Z_scope.

(** ** JavaScript numbers *)

Module JsNumber.

Definition prec : Z := 53.
Definition emax : Z := 1024.

Definition number : Type := spec_float.

Definition NaN : number := S754_nan.
Definition Infinity : number := S754_infinity false.

(** [Number.isNaN] *)
Definition isNaN (x : number) : bool :=
  match x with S754_nan => true | _ => false end.

(** [Number.isFinite] *)
Definition isFinite (x : number) : bool :=
  match x with S754_zero _ | S754_finite _ _ _ => true | _ => false end.

Definition sub (x y : number) : number := SFsub prec emax x y.
Definition div (x y : number) : number := SFdiv prec emax x y.

(** [x < y], [x > y] and [x <= y]; all three are false when an operand is NaN. *)
Definition lt (x y : number) : bool := SFltb x y.
Definition gt (x y : number) : bool := SFltb y x.
Definition le (x y : number) : bool := SFleb x y.

(** The number nearest to the quotient [p / q] of two positive integers
    (round to nearest, ties to even), with sign [neg]. *)
Definition of_ratio (neg : bool) (p q : positive) : number :=
  let '(mz, ez, lz) := SFdiv_core_binary prec emax (Zpos p) 0 (Zpos q) 0 in
  binary_round_aux prec emax neg mz ez lz.

(** The number denoted by the decimal [(-1)^neg * m * 10^e]: what the
    language gives for a numeric literal and for the digits read by
    [parseInt], [parseFloat] and [JSON.parse]. *)
Definition of_decimal (neg : bool) (m : N) (e : Z) : number :=
  match m with
  | N0 => S754_zero neg
  | Npos p =>
      match e with
      | Zneg k => of_ratio neg p (Pos.pow 10 k)
      | _ => binary_round prec emax neg (p * Z.to_pos (10 ^ e)) 0
      end
  end.

Definition of_Z (z : Z) : number :=
  of_decimal (z <? 0) (Z.abs_N z) 0.

End JsNumber.
Export JsNumber.

(** ** JavaScript strings

    A string is a sequence of code units; the model keeps the code units
    below 256.  Among these the white space of [trim], of [parseInt] and of
    the regular-expression class [\s] is TAB, LF, VT, FF, CR, SPACE and
    NBSP, and the only characters that an [/i] pattern made of ASCII letters
    matches are the two cases of each ASCII letter. *)

Module JsString.

Definition is_ws (c : ascii) : bool :=
  let n := nat_of_ascii c in
  (Nat.eqb n 9 || Nat.eqb n 10 || Nat.eqb n 11 || Nat.eqb n 12
   || Nat.eqb n 13 || Nat.eqb n 32 || Nat.eqb n 160)%bool.

Definition is_nl (c : ascii) : bool := Nat.eqb (nat_of_ascii c) 10.

Definition nl : string := String (ascii_of_nat 10) EmptyString.

Definition is_empty (s : string) : bool :=
  match s with EmptyString => true | _ => false end.

Fixpoint trimStart (s : string) : string :=
  match s with
  | String c r => if is_ws c then trimStart r else s
  | EmptyString => EmptyString
  end.

Fixpoint trimEnd (s : string) : string :=
  match s with
  | String c r =>
      let r' := trimEnd r in
      if (is_ws c && is_empty r')%bool then EmptyString else String c r'
  | EmptyString => EmptyString
  end.

(** [s.trim()] *)
Definition trim (s : string) : string := trimEnd (trimStart s).

(** [s.startsWith(p)] *)
Definition startsWith (p s : string) : bool := prefix p s.

Definition to_lower (c : ascii) : ascii :=
  let n := nat_of_ascii c in
  if (Nat.leb 65 n && Nat.leb n 90)%bool then ascii_of_nat (n + 32) else c.

(** [p] is matched at the head of [s], letters compared without case;
    [p] is given in lower case. *)
Fixpoint ci_prefix (p s : string) : bool :=
  match p, s with
  | EmptyString, _ => true
  | String a p', String b s' =>
      (Ascii.eqb a (to_lower b) && ci_prefix p' s')%bool
  | String _ _, EmptyString => false
  end.

(** [/p/i.test(s)] for a literal pattern [p]. *)
Fixpoint ci_contains (p s : string) : bool :=
  (ci_prefix p s
   || match s with
      | String _ s' => ci_contains p s'
      | EmptyString => false
      end)%bool.

(** [/p1|p2|.../i.test(s)] for literal alternatives. *)
Definition ci_test (alts : list string) (s : string) : bool :=
  existsb (fun p => ci_contains p s) alts.

Definition digit_of (c : ascii) : option N :=
  let n := nat_of_ascii c in
  if (Nat.leb 48 n && Nat.leb n 57)%bool then Some (N.of_nat (n - 48)) else None.

(** The longest run of decimal digits at the head of [s]: its value
    continuing the accumulator [acc], its length, and what follows. *)
Fixpoint span_digits (s : string) (acc : N) (cnt : nat) : N * nat * string :=
  match s with
  | String c r =>
      match digit_of c with
      | Some d => span_digits r (10 * acc + d)%N (S cnt)
      | None => (acc, cnt, s)
      end
  | EmptyString => (acc, cnt, s)
  end.

Definition read_sign (s : string) : bool * string :=
  match s with
  | String "-" r => (true, r)
  | String "+" r => (false, r)
  | _ => (false, s)
  end.

(** The sign and magnitude that [parseInt(s, 10)] reads, if it reads a digit. *)
Definition parse_int (s : string) : option (bool * N) :=
  let '(neg, s1) := read_sign (trimStart s) in
  let '(v, cnt, _) := span_digits s1 0%N 0%nat in
  if Nat.eqb cnt 0 then None else Some (neg, v).

(** [parseInt(s, 10)] *)
Definition parseInt (s : string) : number :=
  match parse_int s with
  | Some (neg, v) => of_decimal neg v 0
  | None => NaN
  end.

(** The exponent part of a decimal literal, counted only when complete. *)
Definition read_exponent (s : string) : Z :=
  match s with
  | String c r =>
      if Ascii.eqb (to_lower c) "e" then
        let '(neg, r1) := read_sign r in
        let '(v, cnt, _) := span_digits r1 0%N 0%nat in
        if Nat.eqb cnt 0 then 0
        else if neg then - Z.of_N v else Z.of_N v
      else 0
  | EmptyString => 0
  end.

(** The fraction part of a decimal literal, continuing the digits [iv]. *)
Definition read_fraction (s : string) (iv : N) : N * nat * string :=
  match s with
  | String "." r => span_digits r iv 0%nat
  | _ => (iv, 0%nat, s)
  end.

(** [parseFloat(s)]: the longest prefix of the trimmed string that is a
    decimal literal. *)
Definition parseFloat (s : string) : number :=
  let '(neg, s1) := read_sign (trimStart s) in
  if prefix "Infinity" s1 then S754_infinity neg
  else
    let '(iv, icnt, s2) := span_digits s1 0%N 0%nat in
    let '(fv, fcnt, s3) := read_fraction s2 iv in
    if Nat.eqb (icnt + fcnt) 0 then NaN
    else of_decimal neg fv (read_exponent s3 - Z.of_nat fcnt).

Definition digit_char (d : N) : ascii := ascii_of_N (48 + d).

Fixpoint dec_digits (fuel : nat) (n : N) (acc : string) : string :=
  match fuel with
  | O => acc
  | S f =>
      let acc' := String (digit_char (n mod 10)) acc in
      if (n / 10 =? 0)%N then acc' else dec_digits f (n / 10) acc'
  end.

(** The decimal digits of [n], most significant first. *)
Definition dec_string (n : N) : string :=
  dec_digits (S (N.to_nat (N.size n))) n EmptyString.

(** The integer nearest to [10 * m * 2^e], the larger one on a tie. *)
Definition tenths (m : positive) (e : Z) : N :=
  match e with
  | Zneg k => Z.to_N ((20 * Zpos m + 2 ^ Zpos k) / 2 ^ (Zpos k + 1))
  | _ => Z.to_N (10 * Zpos m * 2 ^ e)
  end.

(** [x.toFixed(1)] (for [|x| < 1e21], where the result is in fixed notation). *)
Definition toFixed1 (x : number) : string :=
  match x with
  | S754_nan => "NaN"
  | S754_infinity s => if s then "-Infinity" else "Infinity"
  | S754_zero _ => "0.0"
  | S754_finite s m e =>
      let n := tenths m e in
      (if s then "-" else "")
        ++ dec_string (n / 10) ++ "." ++ String (digit_char (n mod 10)) EmptyString
  end.

(** Structural equality of two numbers. *)
Definition same_number (a b : number) : bool :=
  match a, b with
  | S754_zero s, S754_zero s' => Bool.eqb s s'
  | S754_infinity s, S754_infinity s' => Bool.eqb s s'
  | S754_nan, S754_nan => true
  | S754_finite s m e, S754_finite s' m' e' =>
      (Bool.eqb s s' && Pos.eqb m m' && Z.eqb e e')%bool
  | _, _ => false
  end.

(** [m * 2^e * 10^p] as a quotient of two positive integers. *)
Definition scaled (m : positive) (e p : Z) : Z * Z :=
  (Zpos m * (if e <? 0 then 1 else 2 ^ e) * (if p <? 0 then 1 else 10 ^ p),
   (if e <? 0 then 2 ^ (- e) else 1) * (if p <? 0 then 10 ^ (- p) else 1)).

(** The least [n], from [n0] upwards, with [m * 2^e < 10^n]. *)
Fixpoint magnitude (fuel : nat) (m : positive) (e n0 : Z) : Z :=
  match fuel with
  | O => n0
  | S f =>
      let '(num, den) := scaled m e (- n0) in
      if num <? den then n0 else magnitude f m e (n0 + 1)
  end.

(** The shortest digits of [x = m * 2^e]: the least [k], from [k0] upwards,
    for which a [k]-digit integer [s] and an exponent [n] denote [x], that
    is [s * 10^(n-k)] rounds to [x]; the nearest such [s] when there are two. *)
Fixpoint shortest (fuel : nat) (x : number) (m : positive) (e n k0 : Z) : Z * Z * Z :=
  let '(num, den) := scaled m e (k0 - n) in
  let lo := num / den in
  let r := num mod den in
  let fit (c : Z) : Z * Z := if c =? 10 ^ k0 then (10 ^ (k0 - 1), n + 1) else (c, n) in
  let ok (c : Z) : bool :=
    let '(s, n') := fit c in same_number (of_decimal false (Z.to_N s) (n' - k0)) x in
  let pick (c : Z) : Z * Z * Z := let '(s, n') := fit c in (s, n', k0) in
  match fuel with
  | O => pick lo
  | S f =>
      if r =? 0 then (if ok lo then pick lo else shortest f x m e n (k0 + 1))
      else
        match ok lo, ok (lo + 1) with
        | true, true =>
            if 2 * r <? den then pick lo
            else if den <? 2 * r then pick (lo + 1)
            else if Z.even lo then pick lo else pick (lo + 1)
        | true, false => pick lo
        | false, true => pick (lo + 1)
        | false, false => shortest f x m e n (k0 + 1)
        end
  end.

Fixpoint zeros (n : nat) : string :=
  match n with O => EmptyString | S n' => String "0" (zeros n') end.

(** [Number::toString(x)] in radix 10: the shortest digits that denote [x],
    in fixed notation for exponents from -6 to 21 and in exponent notation
    beyond. *)
Definition Number_toString (x : number) : string :=
  match x with
  | S754_nan => "NaN"
  | S754_zero _ => "0"
  | S754_infinity s => if s then "-Infinity" else "Infinity"
  | S754_finite sg m e =>
      let n0 := magnitude 8 m e ((Zpos (digits2_pos m) + e - 1) * 30103 / 100000 - 2) in
      let '(s, n, k) := shortest 20 (S754_finite false m e) m e n0 1 in
      let digits := dec_string (Z.to_N s) in
      let body :=
        if ((k <=? n) && (n <=? 21))%bool then digits ++ zeros (Z.to_nat (n - k))
        else if ((0 <? n) && (n <=? 21))%bool then
          substring 0 (Z.to_nat n) digits
            ++ "." ++ substring (Z.to_nat n) (Z.to_nat (k - n)) digits
        else if ((-6 <? n) && (n <=? 0))%bool then
          "0." ++ zeros (Z.to_nat (- n)) ++ digits
        else
          (if k =? 1 then digits
           else substring 0 1 digits ++ "." ++ substring 1 (Z.to_nat (k - 1)) digits)
            ++ "e" ++ (if n - 1 <? 0 then "-" else "+") ++ dec_string (Z.abs_N (n - 1)) in
      (if sg then "-" else "") ++ body
  end.

(** [s.split(/\s*\n\s*/)[0]]: the pattern matches at the first position
    from which a run of white space reaches a line feed. *)
Fixpoint ws_reaches_nl (s : string) : bool :=
  match s with
  | String c r => if is_nl c then true else if is_ws c then ws_reaches_nl r else false
  | EmptyString => false
  end.

Fixpoint split_first (s : string) : string :=
  match s with
  | String c r => if ws_reaches_nl s then EmptyString else String c (split_first r)
  | EmptyString => EmptyString
  end.

End JsString.
Export JsString.

(** ** Effects: exceptions, the log sink, subprocess calls and the clock *)

Definition error : Type := string.

Inductive outcome (A : Type) : Type :=
| Ok (a : A)
| Throw (e : error).
Arguments Ok {A} a.
Arguments Throw {A} e.

Inductive level : Type := Debug | Info | Warn | Error.

(** What is handed to the log sink.  Messages built from a template keep
    the interpolated values instead of their rendering. *)
Inductive message : Type :=
| Text (s : string)
| WithError (s : string) (e : error)
| CpuTemperature (c : number)
| GpuUnavailable (model source : string)
| GpuTemperature (model : string) (t : number) (source : string)
| GpuMemoryTemperature (model : string) (t : number).

Record log_entry : Type := { lvl : level; msg : message }.

(** The state a run threads: the wall clock in milliseconds ([Date.now()]),
    the number of subprocesses started so far, the entries given to the log
    sink (oldest first) and the delays handed to [setTimeout]. *)
Record world : Type := {
  clock : Z;
  calls : nat;
  logs : list log_entry;
  timers : list Z
}.

Definition M (A : Type) : Type := world -> outcome A * world.

Definition ret {A} (a : A) : M A := fun w => (Ok a, w).

Definition bind {A B} (m : M A) (k : A -> M B) : M B :=
  fun w =>
    match m w with
    | (Ok a, w1) => k a w1
    | (Throw e, w1) => (Throw e, w1)
    end.

Declare Scope js_scope.
Delimit Scope js_scope with js.
Notation "x <- m ;; k" := (bind m (fun x => k))
  (at level 100, m at next level, right associativity) : js_scope.
Notation "m ;;; k" := (bind m (fun _ => k))
  (at level 100, right associativity) : js_scope.
Local Open Scope js_scope.

(** [try { body } catch (err) { handler }] *)
Definition try_catch {A} (body : M A) (handler : error -> M A) : M A :=
  fun w =>
    match body w with
    | (Ok a, w1) => (Ok a, w1)
    | (Throw e, w1) => handler e w1
    end.

(** The result of a call that returns or throws. *)
Definition lift {A} (o : outcome A) : M A := fun w => (o, w).

(** The log sink: [logger.debug], [logger.info], [logger.warn], [logger.error].
    A call appends one entry and returns; the sink itself does not throw. *)
Definition logger (l : level) (m : message) : M unit :=
  fun w =>
    (Ok tt, {| clock := clock w; calls := calls w;
               logs := logs w ++ [ {| lvl := l; msg := m |} ];
               timers := timers w |}).

(** Wall time passing while the caller is suspended or blocked. *)
Definition elapse (ms : Z) : M unit :=
  fun w =>
    (Ok tt, {| clock := clock w + ms; calls := calls w;
               logs := logs w; timers := timers w |}).

(** [Date.now()] *)
Definition Date_now : M Z := fun w => (Ok (clock w), w).

(** The longest delay of a timer; the runtime replaces a longer one by 1. *)
Definition timer_limit : Z := 2147483647.

(** [await new Promise((res) => setTimeout(res, ms))], with a timer that
    fires exactly [ms] milliseconds later: the timer of a delay from 1 to
    [timer_limit].  ([main] asks for a longer one only when the clock steps
    back by more than 24 days during a tick.) *)
Definition sleep (ms : Z) : M unit :=
  fun w =>
    (Ok tt, {| clock := clock w + ms; calls := calls w;
               logs := logs w; timers := timers w ++ [ms] |}).

(** ** The environment of one tick *)

(** A number as [JSON.parse] reads it: a decimal literal. *)
Record jnumber : Type := { jneg : bool; jmant : N; jexp : Z }.

Definition jvalue (v : jnumber) : number :=
  of_decimal (jneg v) (jmant v) (jexp v).

(** A parsed JSON value.  The members of an object are in the order of the
    text; a key written more than once has its last value. *)
#[warnings="-register-all"]
Inductive json : Type :=
| JNull
| JBool (b : bool)
| JNumber (n : jnumber)
| JString (s : string)
| JArray (items : list json)
| JObject (members : list (string * json)).

(** A graphics controller as the hardware-information library reports it;
    a temperature is [None] when its [typeof] is not ['number']. *)
Module Si.
Record controller : Type := {
  vendor : string;
  model : string;
  temperatureGpu : option number;
  temperatureMemory : option number
}.
End Si.

Record Env : Type := {
  (** [si.cpuTemperature()]: rejected, or resolved with [main] a number or not *)
  si_cpuTemperature : outcome (option number);
  (** wall time that passes while the CPU resolver runs *)
  cpu_ms : Z;
  (** [si.graphics()]: rejected, or resolved with [controllers] *)
  si_graphics : outcome (list Si.controller);
  (** wall time that passes while the GPU enumerator runs *)
  gpu_ms : Z;
  (** [process.platform] *)
  platform : string;
  (** [process.env.LHM_JSON_PATH] *)
  LHM_JSON_PATH : option string;
  (** [fs.existsSync], [fs.readFileSync(_, 'utf8')], [fs.readdirSync], [JSON.parse] *)
  existsSync : string -> bool;
  readFileSync : string -> outcome string;
  readdirSync : string -> outcome (list string);
  JSON_parse : string -> outcome json;
  (** the number of nested calls the call stack has room for when [walk] is
      first called *)
  stack_room : nat;
  (** [execSync(cmd, ...).toString()] of the subprocess started after [n] others *)
  child_process : nat -> string -> outcome string
}.

Definition execSync (env : Env) (cmd : string) : M string :=
  fun w =>
    (child_process env (calls w) cmd,
     {| clock := clock w; calls := S (calls w); logs := logs w; timers := timers w |}).

(** ** The CPU temperature resolver *)

Definition dq : string := String (ascii_of_nat 34) EmptyString.

Definition psScript : string :=
  "Get-CimInstance -Namespace root\OpenHardwareMonitor -ClassName Sensor | Where-Object { $_.SensorType -eq 'Temperature' -and $_.Identifier -match 'cpu' } | Sort-Object Value -Descending | Select-Object -First 1 -ExpandProperty Value".

Definition wmiScript : string :=
  "Get-WmiObject MSAcpi_ThermalZoneTemperature -Namespace root\wmi | Select-Object -First 1 -ExpandProperty CurrentTemperature".

Definition powershell (script : string) : string :=
  "powershell -NoProfile -Command " ++ dq ++ script ++ dq.

Definition basePath : string := "/sys/class/thermal".

(** [/tctl|tdie|package|cpu temp|ccd|core \(tctl\/tdie\)/i] *)
Definition lhm_labels : list string :=
  ["tctl"; "tdie"; "package"; "cpu temp"; "ccd"; "core (tctl/tdie)"].

(** [/cpu|x86_pkg|soc/i] *)
Definition zone_labels : list string := ["cpu"; "x86_pkg"; "soc"].

(** [if (best === null || c > best) best = c] *)
Definition update_best (best : option number) (c : number) : option number :=
  match best with
  | None => Some c
  | Some b => if gt c b then Some c else best
  end.

(** The first [try] block: the hardware-information library. *)
Definition libraryProbe (env : Env) : M (option number) :=
  try_catch
    (elapse (cpu_ms env) ;;;
     cpu <- lift (si_cpuTemperature env) ;;
     match cpu with
     | Some main => if negb (isNaN main) then ret (Some main) else ret None
     | None => ret None
     end)
    (fun err =>
       logger Warn (WithError "systeminformation cpuTemperature() failed, attempting fallback" err) ;;;
       ret None).

(** Sequencing of calls that return or throw. *)
Definition and_then {A B} (o : outcome A) (k : A -> outcome B) : outcome B :=
  match o with
  | Ok a => k a
  | Throw e => Throw e
  end.

(** A loop whose body may throw. *)
Fixpoint for_of {A B} (body : B -> A -> outcome B) (items : list A) (b : B) : outcome B :=
  match items with
  | [] => Ok b
  | a :: rest => and_then (body b a) (for_of body rest)
  end.

Definition stackOverflow : error := "RangeError: Maximum call stack size exceeded".
Definition notPrimitive : error := "TypeError: Cannot convert object to primitive value".

(** [node.key] on an object made by [JSON.parse]; [None] is [undefined]. *)
Fixpoint field (key : string) (members : list (string * json)) : option json :=
  match members with
  | [] => None
  | (k, v) :: rest =>
      match field key rest with
      | Some v' => Some v'
      | None => if String.eqb key k then Some v else None
      end
  end.

(** The truth value of a JSON value in a condition. *)
Definition truthy (v : json) : bool :=
  match v with
  | JNull => false
  | JBool b => b
  | JNumber n =>
      match jvalue n with
      | S754_zero _ | S754_nan => false
      | _ => true
      end
  | JString s => negb (is_empty s)
  | JArray _ | JObject _ => true
  end.

(** The elements' strings, separated by commas; the first throw is the result. *)
Fixpoint join (parts : list (outcome string)) : outcome string :=
  match parts with
  | [] => Ok EmptyString
  | [p] => p
  | p :: rest => and_then p (fun s => and_then (join rest) (fun r => Ok (s ++ "," ++ r)))
  end.

(** [ToString(v)], the conversion that [RegExp.prototype.test] applies to
    its argument, with room for [room] nested calls.  An array is joined
    ([null] elements as empty strings); an object is ["[object Object]"]
    unless it has a member [toString], which is not callable and leaves the
    object without a primitive value. *)
Fixpoint ToString (room : nat) (v : json) : outcome string :=
  match room with
  | O => Throw stackOverflow
  | S room' =>
      match v with
      | JNull => Ok "null"
      | JBool b => Ok (if b then "true" else "false")
      | JNumber n => Ok (Number_toString (jvalue n))
      | JString s => Ok s
      | JArray items =>
          join (map (fun x => match x with
                              | JNull => Ok EmptyString
                              | _ => ToString room' x
                              end) items)
      | JObject members =>
          match field "toString" members with
          | Some _ => Throw notPrimitive
          | None => Ok "[object Object]"
          end
      end
  end.

(** [text && /tctl|.../i.test(text)] *)
Definition test_label (room : nat) (text : option json) : outcome bool :=
  match text with
  | Some t =>
      if truthy t
      then and_then (ToString room t) (fun s => Ok (ci_test lhm_labels s))
      else Ok false
  | None => Ok false
  end.

(** [walk], with room for [room] nested calls; the variable [best] it
    assigns is passed through.  Only an object that is not an array has the
    properties [Text], [Value] and [Children]. *)
Fixpoint walk (room : nat) (node : json) (best : option number) : outcome (option number) :=
  match room with
  | O => Throw stackOverflow
  | S room' =>
      match node with
      | JObject members =>
          and_then (test_label room' (field "Text" members))
            (fun matched =>
               let best1 :=
                 match matched, field "Value" members with
                 | true, Some (JNumber value) => update_best best (jvalue value)
                 | _, _ => best
                 end in
               match field "Children" members with
               | Some (JArray children) =>
                   for_of (fun b child => walk room' child b) children best1
               | _ => Ok best1
               end)
      | _ => Ok best
      end
  end.

(** The exported hardware-monitor JSON snapshot. *)
Definition lhmProbe (env : Env) : M (option number) :=
  match LHM_JSON_PATH env with
  | Some lhmPath =>
      if (negb (is_empty lhmPath) && existsSync env lhmPath)%bool then
        try_catch
          (text <- lift (readFileSync env lhmPath) ;;
           json <- lift (JSON_parse env text) ;;
           best <- lift (walk (stack_room env) json None) ;;
           ret best)
          (fun err =>
             logger Debug (WithError "Failed parsing LibreHardwareMonitor JSON" err) ;;;
             ret None)
      else ret None
  | None => ret None
  end.

(** The hardware-monitor management interface. *)
Definition ohmProbe (env : Env) : M (option number) :=
  try_catch
    (o <- execSync env (powershell psScript) ;;
     let out := trim o in
     if negb (is_empty out) then
       let parsed := parseFloat out in
       if negb (isNaN parsed) then ret (Some parsed) else ret None
     else ret None)
    (fun err =>
       logger Debug (WithError "OpenHardwareMonitor WMI query failed (likely not running)" err) ;;;
       ret None).

(** [273.15] and the bounds of the plausible range. *)
Definition n273_15 : number := of_decimal false 27315 (-2).
Definition plausible (c : number) : bool :=
  (gt c (of_Z (-50)) && lt c (of_Z 150))%bool.

(** What the ACPI strategy makes of the trimmed output [raw], a value in
    tenths of Kelvin. *)
Definition acpiConvert (raw : string) : option number :=
  if negb (is_empty raw) then
    let val := parseInt raw in
    if (negb (isNaN val) && gt val (of_Z 0))%bool then
      let c := sub (div val (of_Z 10)) n273_15 in
      if plausible c then Some (parseFloat (toFixed1 c)) else None
    else None
  else None.

(** The generic ACPI thermal-zone management object. *)
Definition acpiProbe (env : Env) : M (option number) :=
  try_catch
    (o <- execSync env (powershell wmiScript) ;;
     ret (acpiConvert (trim o)))
    (fun err =>
       logger Debug (WithError "MSAcpi_ThermalZoneTemperature WMI fallback failed" err) ;;;
       ret None).

(** The body of the loop over the thermal zones. *)
Definition scanZone (env : Env) (best : option number) (zone : string) : option number :=
  let typePath := basePath ++ "/" ++ zone ++ "/type" in
  let tempPath := basePath ++ "/" ++ zone ++ "/temp" in
  if (negb (existsSync env typePath) || negb (existsSync env tempPath))%bool then best
  else
    match readFileSync env typePath with
    | Throw _ => best
    | Ok t =>
        if ci_test zone_labels (trim t) then
          match readFileSync env tempPath with
          | Throw _ => best
          | Ok r =>
              let milli := parseInt (trim r) in
              if negb (isNaN milli) then update_best best (div milli (of_Z 1000))
              else best
          end
        else best
    end.

(** The kernel thermal-zone tree. *)
Definition zoneScan (env : Env) : M (option number) :=
  try_catch
    (if negb (existsSync env basePath) then ret None
     else
       entries <- lift (readdirSync env basePath) ;;
       let zones := filter (startsWith "thermal_zone") entries in
       ret (fold_left (scanZone env) zones None))
    (fun err =>
       logger Warn (WithError "CPU thermal zone fallback failed" err) ;;;
       ret None).

(** A block that may [return] a value, followed by the rest of the function. *)
Definition orElse {A} (first rest : M (option A)) : M (option A) :=
  r <- first ;;
  match r with
  | Some v => ret (Some v)
  | None => rest
  end.

Definition windowsChain (env : Env) : M (option number) :=
  if String.eqb (platform env) "win32" then
    orElse (lhmProbe env) (orElse (ohmProbe env) (acpiProbe env))
  else ret None.

Definition getCpuTemperature (env : Env) : M (option number) :=
  orElse (libraryProbe env) (orElse (windowsChain env) (zoneScan env)).

(** ** The GPU temperature enumerator *)

Record GpuTempInfo : Type := {
  model : string;
  temperatureGpu : option number;
  temperatureMemory : option number;
  source : string
}.

Definition nvidiaSmi : string :=
  "nvidia-smi --query-gpu=temperature.gpu --format=csv,noheader,nounits".

(** [typeof t === 'number' && !Number.isNaN(t) ? t : null] *)
Definition numeric (t : option number) : option number :=
  match t with
  | Some n => if negb (isNaN n) then Some n else None
  | None => None
  end.

Definition is_null {A} (o : option A) : bool :=
  match o with None => true | Some _ => false end.

(** [a || b] on strings: the empty string is falsy. *)
Definition or_string (a b : string) : string := if is_empty a then b else a.

(** The [try] block of the vendor CLI; [temp] and [source] are the two
    variables it may assign. *)
Definition nvidiaFallback (env : Env) (temp : option number) (source : string)
  : M (option number * string) :=
  try_catch
    (o <- execSync env nvidiaSmi ;;
     let out := trim o in
     let first := split_first out in
     let parsed := parseInt first in
     if negb (isNaN parsed) then ret (Some parsed, "nvidia-smi")
     else ret (temp, source))
    (fun err =>
       logger Debug (WithError "nvidia-smi fallback failed" err) ;;;
       ret (temp, source)).

(** The body of the loop over the controllers: the element pushed for [c]. *)
Definition resolveController (env : Env) (c : Si.controller) : M GpuTempInfo :=
  let temp := numeric (Si.temperatureGpu c) in
  let memTemp := numeric (Si.temperatureMemory c) in
  let source := "systeminformation" in
  ts <- (if (is_null temp && ci_test ["nvidia"] (Si.vendor c ++ " " ++ Si.model c))%bool
         then nvidiaFallback env temp source
         else ret (temp, source)) ;;
  ret {| model := or_string (Si.model c) (or_string (Si.vendor c) "Unknown GPU");
         temperatureGpu := fst ts;
         temperatureMemory := memTemp;
         source := snd ts |}.

Fixpoint pushAll (env : Env) (cs : list Si.controller) (result : list GpuTempInfo)
  : M (list GpuTempInfo) :=
  match cs with
  | [] => ret result
  | c :: cs' =>
      info <- resolveController env c ;;
      pushAll env cs' (result ++ [info])
  end.

(** The [catch] returns what was pushed before the failure; the only call
    of the [try] block that throws is [si.graphics()], before any push. *)
Definition getGpuTemperatures (env : Env) : M (list GpuTempInfo) :=
  try_catch
    (elapse (gpu_ms env) ;;;
     controllers <- lift (si_graphics env) ;;
     pushAll env controllers [])
    (fun err =>
       logger Warn (WithError "systeminformation graphics() failed" err) ;;;
       ret []).

(** ** The reporting job and the poll supervisor *)

Definition logGpu (gpu : GpuTempInfo) : M unit :=
  (match temperatureGpu gpu with
   | None => logger Info (GpuUnavailable (model gpu) (source gpu))
   | Some t => logger Info (GpuTemperature (model gpu) t (source gpu))
   end) ;;;
  match temperatureMemory gpu with
  | Some t => logger Info (GpuMemoryTemperature (model gpu) t)
  | None => ret tt
  end.

Fixpoint forEach {A} (l : list A) (body : A -> M unit) : M unit :=
  match l with
  | [] => ret tt
  | a :: l' => body a ;;; forEach l' body
  end.

Definition logSysTemperatures (env : Env) : M unit :=
  cpuTemp <- getCpuTemperature env ;;
  (match cpuTemp with
   | None => logger Info (Text "CPU temperature unavailable")
   | Some c => logger Info (CpuTemperature c)
   end) ;;;
  gpuTemps <- getGpuTemperatures env ;;
  match gpuTemps with
  | [] => logger Info (Text "No GPU controllers found")
  | _ => forEach gpuTemps logGpu
  end.

Definition intervalMs : Z := 30000.

(** One iteration of the [while (true)] loop of [main], for a given job. *)
Definition tick (job : M unit) : M unit :=
  started <- Date_now ;;
  try_catch job (fun err => logger Error (WithError "Job failed" err)) ;;;
  now <- Date_now ;;
  let elapsed := now - started in
  let remaining := intervalMs - elapsed in
  if remaining >? 0 then sleep remaining else ret tt.

(** The iterations of the loop that run the given jobs, one after the other. *)
Fixpoint loop (jobs : list (M unit)) : M unit :=
  match jobs with
  | [] => ret tt
  | job :: jobs' => tick job ;;; loop jobs'
  end.

(** [main], observed for as many ticks as there are environments. *)
Definition main (envs : list Env) : M unit :=
  loop (map logSysTemperatures envs).

(** The process: running, or exited with a status. *)
Inductive process : Type :=
| Running (w : world)
| Exited (code : Z) (w : world).

(** [body.catch((err) => { logger.error('Fatal', err); process.exit(1); })] *)
Definition catch_fatal (body : M unit) (w : world) : process :=
  match body w with
  | (Ok _, w1) => Running w1
  | (Throw err, w1) => Exited 1 (snd (logger Error (WithError "Fatal" err) w1))
  end.

Definition program (envs : list Env) (w : world) : process :=
  catch_fatal (main envs) w.

(** ** The specification's reading of the pipeline *)

(** The probe chain of the CPU resolver, in priority order. *)
Definition probeChain (env : Env) : list (M (option number)) :=
  libraryProbe env
    :: (if String.eqb (platform env) "win32"
        then [lhmProbe env; ohmProbe env; acpiProbe env] else [])
    ++ [zoneScan env].

(** The consumer of a chain takes the first result that is not absent. *)
Fixpoint firstSuccess (chain : list (M (option number))) : M (option number) :=
  match chain with
  | [] => ret None
  | probe :: rest => orElse probe (firstSuccess rest)
  end.

(** Best-of-N selection over a sequence of readings. *)
Definition best_of (readings : list number) : option number :=
  fold_left update_best readings None.

(** [r] is a maximum of [readings]: one of them, and none is above it. *)
Definition is_max_of (readings : list number) (r : number) : Prop :=
  In r readings /\ forall c, In c readings -> le c r = true.

(** The strings of the elements, separated by commas, when there is one
    for each. *)
Fixpoint joined (parts : list (option string)) : option string :=
  match parts with
  | [] => Some EmptyString
  | [p] => p
  | p :: rest =>
      match p, joined rest with
      | Some s, Some r => Some (s ++ "," ++ r)
      | _, _ => None
      end
  end.

(** The string a label converts to, when the conversion does not throw
    whatever the room. *)
Fixpoint text_of (v : json) : option string :=
  match v with
  | JNull => Some "null"
  | JBool b => Some (if b then "true" else "false")
  | JNumber n => Some (Number_toString (jvalue n))
  | JString s => Some s
  | JArray items =>
      joined (map (fun x => match x with
                            | JNull => Some EmptyString
                            | _ => text_of x
                            end) items)
  | JObject members =>
      match field "toString" members with
      | Some _ => None
      | None => Some "[object Object]"
      end
  end.

(** The label of a node matches: it is truthy and its string contains one
    of the names, in any case. *)
Definition label_matches (text : option json) : bool :=
  match text with
  | Some t =>
      (truthy t
       && match text_of t with
          | Some s => ci_test lhm_labels s
          | None => false
          end)%bool
  | None => false
  end.

(** The numeric value of a node whose label matches. *)
Definition reading (node : json) : option number :=
  match node with
  | JObject members =>
      if label_matches (field "Text" members) then
        match field "Value" members with
        | Some (JNumber value) => Some (jvalue value)
        | _ => None
        end
      else None
  | _ => None
  end.

(** The nodes of a snapshot: the root and, through the [Children] arrays,
    the nodes below it. *)
Inductive node_of : json -> json -> Prop :=
| node_root j : node_of j j
| node_below members children child n :
    field "Children" members = Some (JArray children) ->
    In child children -> node_of child n ->
    node_of (JObject members) n.

(** [v] is the maximum of the values of the nodes whose label matches. *)
Definition is_max_reading (j : json) (v : number) : Prop :=
  (exists n, node_of j n /\ reading n = Some v)
  /\ forall n c, node_of j n -> reading n = Some c -> le c v = true.

(** [l] lists the readings of the nodes of [j], in some order. *)
Definition readings_of (j : json) (l : list number) : Prop :=
  forall c, In c l <-> exists n, node_of j n /\ reading n = Some c.

(** No node has a label whose conversion to a string throws. *)
Definition convertible (j : json) : Prop :=
  forall n members t,
    node_of j n -> n = JObject members ->
    field "Text" members = Some t -> truthy t = true ->
    text_of t <> None.

(** The depth of nesting of arrays and objects in a value. *)
Fixpoint depth (v : json) : nat :=
  match v with
  | JArray items => S (list_max (map depth items))
  | JObject members => S (list_max (map (fun kv => depth (snd kv)) members))
  | _ => O
  end.

(** The walk of [node] returns when it has room for [room] nested calls:
    no label on the way throws and no call goes beyond the room. *)
Fixpoint completes (room : nat) (node : json) : bool :=
  match room with
  | O => false
  | S room' =>
      match node with
      | JObject members =>
          (match test_label room' (field "Text" members) with
           | Ok _ => true
           | Throw _ => false
           end
           && match field "Children" members with
              | Some (JArray children) => forallb (completes room') children
              | _ => true
              end)%bool
      | _ => true
      end
  end.

(** [j'] is [j] with the children of any of its nodes listed in another
    order: at a node with children the label and the value are kept, and
    the children are those of [j], reordered in turn, in some order. *)
#[warnings="-register-all"]
Inductive reordered : json -> json -> Prop :=
| reordered_same j : reordered j j
| reordered_node members members' children children' children'' :
    field "Text" members' = field "Text" members ->
    field "Value" members' = field "Value" members ->
    field "Children" members = Some (JArray children) ->
    field "Children" members' = Some (JArray children'') ->
    Forall2 reordered children children' ->
    Permutation children' children'' ->
    reordered (JObject members) (JObject members').

(** A thermal zone of the kernel tree: its directory entry and the texts of
    its [type] and [temp] files. *)
Record ThermalZoneSample : Type := {
  zone : string;
  type_text : string;
  temp_text : string
}.

Definition zone_label (z : ThermalZoneSample) : string := trim (type_text z).
Definition zone_milli (z : ThermalZoneSample) : number := parseInt (trim (temp_text z)).
Definition zone_celsius (z : ThermalZoneSample) : number := div (zone_milli z) (of_Z 1000).
Definition zone_kept (z : ThermalZoneSample) : bool := ci_test zone_labels (zone_label z).

(** Both files of the zone exist and are readable, and [temp] holds an integer. *)
Definition zone_readable (env : Env) (z : ThermalZoneSample) : Prop :=
  existsSync env (basePath ++ "/" ++ zone z ++ "/type") = true
  /\ existsSync env (basePath ++ "/" ++ zone z ++ "/temp") = true
  /\ readFileSync env (basePath ++ "/" ++ zone z ++ "/type") = Ok (type_text z)
  /\ readFileSync env (basePath ++ "/" ++ zone z ++ "/temp") = Ok (temp_text z)
  /\ isNaN (zone_milli z) = false.

(** The element of the enumerator's result for a controller when the vendor
    CLI is left out of the picture. *)
Definition libraryInfo (c : Si.controller) : GpuTempInfo :=
  {| model := or_string (Si.model c) (or_string (Si.vendor c) "Unknown GPU");
     temperatureGpu := numeric (Si.temperatureGpu c);
     temperatureMemory := numeric (Si.temperatureMemory c);
     source := "systeminformation" |}.

(** The condition under which the vendor CLI is consulted. *)
Definition wantsVendorCli (c : Si.controller) : bool :=
  (is_null (numeric (Si.temperatureGpu c))
   && ci_test ["nvidia"] (Si.vendor c ++ " " ++ Si.model c))%bool.

(** The integer the vendor CLI supplies, if it does: the first line of its
    trimmed output, parsed. *)
Definition cliReading (o : outcome string) : option number :=
  match o with
  | Ok out =>
      let parsed := parseInt (split_first (trim out)) in
      if isNaN parsed then None else Some parsed
  | Throw _ => None
  end.

(** ** Sample environments *)

Definition world0 : world := {| clock := 0; calls := 0; logs := []; timers := [] |}.

Fixpoint assoc {A} (k : string) (l : list (string * A)) : option A :=
  match l with
  | [] => None
  | (k', a) :: l' => if String.eqb k k' then Some a else assoc k l'
  end.

(** A machine on which nothing can be probed. *)
Definition bareEnv : Env :=
  {| si_cpuTemperature := Ok None; cpu_ms := 0;
     si_graphics := Ok []; gpu_ms := 0;
     platform := "linux"; LHM_JSON_PATH := None;
     existsSync := fun _ => false;
     readFileSync := fun _ => Throw "ENOENT";
     readdirSync := fun _ => Throw "ENOENT";
     JSON_parse := fun _ => Throw "SyntaxError";
     stack_room := 4000;
     child_process := fun _ _ => Throw "ENOENT" |}.

(** The library reports [main]. *)
Definition libraryEnv (main : number) : Env :=
  {| si_cpuTemperature := Ok (Some main); cpu_ms := 0;
     si_graphics := Ok []; gpu_ms := 0;
     platform := "linux"; LHM_JSON_PATH := None;
     existsSync := fun _ => false;
     readFileSync := fun _ => Throw "ENOENT";
     readdirSync := fun _ => Throw "ENOENT";
     JSON_parse := fun _ => Throw "SyntaxError";
     stack_room := 4000;
     child_process := fun _ _ => Throw "ENOENT" |}.

Definition zone_files (zs : list ThermalZoneSample) : list (string * string) :=
  flat_map
    (fun z => [ (basePath ++ "/" ++ zone z ++ "/type", type_text z);
                (basePath ++ "/" ++ zone z ++ "/temp", temp_text z) ])
    zs.

(** A Linux machine whose library reports nothing and whose kernel tree
    holds the zones [zs]. *)
Definition linuxEnv (zs : list ThermalZoneSample) : Env :=
  {| si_cpuTemperature := Ok None; cpu_ms := 0;
     si_graphics := Ok []; gpu_ms := 0;
     platform := "linux"; LHM_JSON_PATH := None;
     existsSync := fun p =>
       (String.eqb p basePath || negb (is_null (assoc p (zone_files zs))))%bool;
     readFileSync := fun p =>
       match assoc p (zone_files zs) with Some t => Ok t | None => Throw "ENOENT" end;
     readdirSync := fun p =>
       if String.eqb p basePath then Ok ("cooling_device0" :: map zone zs)
       else Throw "ENOTDIR";
     JSON_parse := fun _ => Throw "SyntaxError";
     stack_room := 4000;
     child_process := fun _ _ => Throw "ENOENT" |}.

(** A Windows machine whose library reports nothing, with an exported
    snapshot (given as the outcome of parsing it) and answers for the two
    management-interface queries. *)
Definition windowsEnv (snapshot : option (outcome json)) (ohm acpi : outcome string) : Env :=
  {| si_cpuTemperature := Ok None; cpu_ms := 0;
     si_graphics := Ok []; gpu_ms := 0;
     platform := "win32";
     LHM_JSON_PATH := match snapshot with Some _ => Some "C:\lhm.json" | None => None end;
     existsSync := fun p => String.eqb p "C:\lhm.json";
     readFileSync := fun p =>
       if String.eqb p "C:\lhm.json" then Ok "snapshot" else Throw "ENOENT";
     readdirSync := fun _ => Throw "ENOENT";
     JSON_parse := fun _ =>
       match snapshot with Some j => j | None => Throw "SyntaxError" end;
     stack_room := 4000;
     child_process := fun _ cmd =>
       if String.eqb cmd (powershell psScript) then ohm
       else if String.eqb cmd (powershell wmiScript) then acpi
       else Throw "ENOENT" |}.


Definition sampleZones : list ThermalZoneSample :=
  [ {| zone := "thermal_zone0"; type_text := "iwlwifi" ++ nl; temp_text := "30000" ++ nl |};
    {| zone := "thermal_zone1"; type_text := "x86_pkg_temp" ++ nl; temp_text := "52000" ++ nl |};
    {| zone := "thermal_zone2"; type_text := "soc-thermal" ++ nl; temp_text := "48000" ++ nl |} ].



(** A node of a snapshot with a string label, perhaps a value, and children. *)
Definition sensor (text : string) (value : option jnumber) (children : list json) : json :=
  JObject
    ([("Text", JString text)]
       ++ match value with Some v => [("Value", JNumber v)] | None => [] end
       ++ [("Children", JArray children)]).

(** A snapshot in the usual shape: a root, a CPU node, two sensors and a fan. *)
Definition sampleSnapshot : json :=
  JObject
    [("Children",
      JArray
        [ sensor "CPU" None
            [ sensor "Core (Tctl/Tdie)" (Some {| jneg := false; jmant := 553; jexp := -1 |}) [];
              sensor "CCD1 (Tdie)" (Some {| jneg := false; jmant := 61; jexp := 0 |}) [];
              sensor "Fan #1" (Some {| jneg := false; jmant := 1200; jexp := 0 |}) [] ] ])].

(** A well-formed snapshot in which a sensor matches and a later node has a
    label that is an object with a member [toString]. *)
Definition oddSnapshot : json :=
  JObject
    [("Text", JString "CPU Package");
     ("Value", JNumber {| jneg := false; jmant := 50; jexp := 0 |});
     ("Children",
      JArray
        [ JObject [("Text", JObject [("toString", JNull)]);
                   ("Value", JNumber {| jneg := false; jmant := 1; jexp := 0 |})] ])].

(** [leaf] below [n] nested groups. *)
Fixpoint nested (n : nat) (leaf : json) : json :=
  match n with
  | O => leaf
  | S n' => sensor "Group" None [nested n' leaf]
  end.

(** A snapshot with one matching sensor, 4000 groups deep. *)
Definition deepSnapshot : json :=
  nested 4000 (sensor "CPU Package" (Some {| jneg := false; jmant := 50; jexp := 0 |}) []).

(** The sample snapshot with the sensors of the CPU node in another order. *)
Definition shuffledSnapshot : json :=
  JObject
    [("Children",
      JArray
        [ sensor "CPU" None
            [ sensor "Fan #1" (Some {| jneg := false; jmant := 1200; jexp := 0 |}) [];
              sensor "CCD1 (Tdie)" (Some {| jneg := false; jmant := 61; jexp := 0 |}) [];
              sensor "Core (Tctl/Tdie)" (Some {| jneg := false; jmant := 553; jexp := -1 |}) [] ] ])].

(** A job that throws after [ms] milliseconds. *)
Definition failingJob (ms : Z) : M unit :=
  elapse ms ;;; lift (Throw "boom").

(** ** Predicates used in the statements *)

(** A zero, a finite number or an infinity whose sign bit is [s]. *)
Inductive signed_as (s : bool) : number -> Prop :=
| signed_zero : signed_as s (S754_zero s)
| signed_infinity : signed_as s (S754_infinity s)
| signed_finite m e : signed_as s (S754_finite s m e).

Definition all_numbers (l : list number) : Prop :=
  Forall (fun c => isNaN c = false) l.

(** A probe that returns, never throws, and never yields NaN. *)
Definition sound_probe (probe : M (option number)) : Prop :=
  forall w, exists r w',
    probe w = (Ok r, w') /\ forall v, r = Some v -> isNaN v = false.

Definition starts_with_digit (s : string) : Prop :=
  exists c r d, s = String c r /\ digit_of c = Some d.

(** The element pushed for a controller with the vendor CLI's integer [t]. *)
Definition cliInfo (c : Si.controller) (t : number) : GpuTempInfo :=
  {| model := model (libraryInfo c);
     temperatureGpu := Some t;
     temperatureMemory := temperatureMemory (libraryInfo c);
     source := "nvidia-smi" |}.

(** The three ways the loop body ends for a controller [c] entered in state
    [w]: the vendor CLI is not consulted; it is consulted and supplies an
    integer; it is consulted and supplies nothing. *)
Inductive resolved (env : Env) (c : Si.controller) (w : world) : GpuTempInfo -> world -> Prop :=
| resolved_library :
    wantsVendorCli c = false ->
    resolved env c w (libraryInfo c) w
| resolved_cli t w' :
    wantsVendorCli c = true ->
    cliReading (child_process env (calls w) nvidiaSmi) = Some t ->
    calls w' = S (calls w) -> logs w' = logs w ->
    resolved env c w (cliInfo c t) w'
| resolved_cli_failed w' :
    wantsVendorCli c = true ->
    cliReading (child_process env (calls w) nvidiaSmi) = None ->
    calls w' = S (calls w) ->
    resolved env c w (libraryInfo c) w'.

(** [info] is what the enumerator emits for [c] in some state. *)
Definition emitted (env : Env) (c : Si.controller) (info : GpuTempInfo) : Prop :=
  exists w w', resolved env c w info w'.

(** ** What a resolver leaves behind *)

(** An entry at warn or debug level. *)
Definition diagnostic (e : log_entry) : bool :=
  match lvl e with Warn | Debug => true | _ => false end.

(** [w'] follows [w] by probing: the timers are untouched, subprocesses are
    only started, and the log only grows, by entries at warn or debug level. *)
Definition probed (w w' : world) : Prop :=
  timers w' = timers w
  /\ (calls w <= calls w')%nat
  /\ exists l, logs w' = (logs w ++ l)%list /\ forallb diagnostic l = true.

(** [m] probes, lets [ms] milliseconds pass and starts at most [k] subprocesses. *)
Definition runs {A} (m : M A) (ms : Z) (k : nat) : Prop :=
  forall w,
    probed w (snd (m w))
    /\ clock (snd (m w)) = clock w + ms
    /\ (calls (snd (m w)) <= calls w + k)%nat.

(** The messages logged at info level, oldest first. *)
Definition infos (l : list log_entry) : list message :=
  map msg (filter (fun e => match lvl e with Info => true | _ => false end) l).

(** The entries logged at error level. *)
Definition errors (l : list log_entry) : list log_entry :=
  filter (fun e => match lvl e with Error => true | _ => false end) l.

(** The report of one tick: the line for the CPU, then the lines for the GPUs. *)
Definition cpu_line (cpuTemp : option number) : message :=
  match cpuTemp with
  | None => Text "CPU temperature unavailable"
  | Some c => CpuTemperature c
  end.

Definition gpu_line (gpu : GpuTempInfo) : list message :=
  (match temperatureGpu gpu with
   | None => GpuUnavailable (model gpu) (source gpu)
   | Some t => GpuTemperature (model gpu) t (source gpu)
   end)
    :: match temperatureMemory gpu with
       | Some t => [GpuMemoryTemperature (model gpu) t]
       | None => []
       end.

Definition gpu_lines (gpuTemps : list GpuTempInfo) : list message :=
  match gpuTemps with
  | [] => [Text "No GPU controllers found"]
  | _ => flat_map gpu_line gpuTemps
  end.

(** The wall time a tick's resolution takes, and the timer it then sets. *)
Definition busy (env : Env) : Z := cpu_ms env + gpu_ms env.

Definition delay (env : Env) : list Z :=
  if intervalMs - busy env >? 0 then [intervalMs - busy env] else [].

Definition total (l : list Z) : Z := fold_right Z.add 0 l.

(** A job that sets no timer and during which the clock steps back by no
    more than the longest timer allows for. *)
Definition steady (job : M unit) : Prop :=
  forall w,
    timers (snd (job w)) = timers w
    /\ clock w - clock (snd (job w)) <= timer_limit - intervalMs.

(** Two selections agree: both absent, or numerically equal. *)
Definition same_reading (a b : option number) : Prop :=
  match a, b with
  | Some v, Some v' => le v v' = true /\ le v' v = true
  | None, None => True
  | _, _ => False
  end.

(** The number of controllers for which the vendor CLI is consulted. *)
Definition cliCalls (cs : list Si.controller) : nat :=
  List.length (filter wantsVendorCli cs).

(** What a directory entry contributes to the zone scan: the reading the
    loop body takes from it when nothing was selected before. *)
Definition zone_reading (env : Env) (z : string) : list number :=
  match scanZone env None z with
  | Some c => [c]
  | None => []
  end.

Definition zone_readings (env : Env) (names : list string) : list number :=
  flat_map (zone_reading env) names.

(** An element of the enumerator's result is well formed: a label that is
    not empty and temperatures that are not NaN. *)
Definition wellformed (info : GpuTempInfo) : Prop :=
  is_empty (model info) = false
  /\ (forall t, temperatureGpu info = Some t -> isNaN t = false)
  /\ (forall t, temperatureMemory info = Some t -> isNaN t = false).

(** * Properties *)

(** ** The order of numbers *)

Ltac fold_compare :=
  repeat match goal with
    | |- context [PosDef.Pos.compare_cont Eq ?p ?q] =>
        change (PosDef.Pos.compare_cont Eq p q) with (Pos.compare p q)
    end.

Ltac order_cases :=
  unfold CompOpp in *;
  repeat match goal with
    | |- context [Z.compare ?a ?b] => destruct (Z.compare_spec a b)
    | |- context [Pos.compare ?a ?b] => destruct (Pos.compare_spec a b)
    | H : context [Z.compare ?a ?b] |- _ => destruct (Z.compare_spec a b)
    | H : context [Pos.compare ?a ?b] |- _ => destruct (Pos.compare_spec a b)
    end;
  try discriminate; try reflexivity; try lia.

Lemma le_refl (x : number) : isNaN x = false -> le x x = true.
Proof.
  unfold le, SFleb.
  destruct x as [s|s| |s m e]; try destruct s; simpl; try reflexivity;
    try discriminate; intros _;
    fold_compare; rewrite Z.compare_refl, Pos.compare_refl; reflexivity.
Qed.

Lemma le_trans (x y z : number) :
  le x y = true -> le y z = true -> le x z = true.
Proof.
  unfold le, SFleb.
  destruct x as [sx|sx| |sx mx ex], y as [sy|sy| |sy my ey], z as [sz|sz| |sz mz ez];
    simpl; try discriminate;
    try destruct sx; try destruct sy; try destruct sz; simpl;
    try discriminate; try reflexivity;
    fold_compare; intros Hxy Hyz; order_cases.
Qed.

Lemma lt_le (x y : number) : lt x y = true -> le x y = true.
Proof.
  unfold lt, le, SFltb, SFleb.
  destruct (SFcompare x y) as [[]|]; auto.
Qed.

Lemma not_lt_le (x y : number) :
  isNaN x = false -> isNaN y = false -> lt x y = false -> le y x = true.
Proof.
  unfold lt, le, SFltb, SFleb.
  destruct x as [sx|sx| |sx mx ex], y as [sy|sy| |sy my ey];
    simpl; try discriminate;
    try destruct sx; try destruct sy; simpl; try discriminate; try reflexivity;
    fold_compare; intros _ _ H; order_cases.
Qed.

(** ** Best-of-N selection *)

Lemma update_best_some (b : option number) (c : number) :
  exists v, update_best b c = Some v.
Proof. destruct b as [b|]; simpl; [destruct (gt c b)|]; eauto. Qed.

Lemma fold_best_some (l : list number) (b : number) :
  exists v, fold_left update_best l (Some b) = Some v.
Proof.
  revert b. induction l as [|c l IH]; intros b; cbn [fold_left]; eauto.
  destruct (update_best_some (Some b) c) as [v ->]. apply IH.
Qed.

Lemma fold_best_member (l : list number) (b : option number) (v : number) :
  fold_left update_best l b = Some v -> b = Some v \/ In v l.
Proof.
  revert b. induction l as [|c l IH]; intros b; simpl; auto.
  intros H. destruct (IH _ H) as [Hb|Hin]; auto.
  destruct b as [b|]; simpl in Hb.
  - destruct (gt c b); inversion Hb; subst; auto.
  - inversion Hb; auto.
Qed.

Lemma fold_best_upper (l : list number) (b : option number) (v : number) :
  all_numbers l -> (forall b0, b = Some b0 -> isNaN b0 = false) ->
  fold_left update_best l b = Some v ->
  (forall b0, b = Some b0 -> le b0 v = true) /\ (forall c, In c l -> le c v = true).
Proof.
  revert b. induction l as [|c l IH]; intros b Hl Hb; simpl.
  - intros ->. split; [|contradiction].
    intros b0 E. inversion E; subst. apply le_refl. auto.
  - intros H. inversion Hl as [|? ? Hc Hl']; subst.
    assert (Hb' : forall b0, update_best b c = Some b0 -> isNaN b0 = false).
    { destruct b as [b|]; simpl; [destruct (gt c b)|]; intros b0 E;
        inversion E; subst; auto. }
    destruct (IH _ Hl' Hb' H) as [Hbest Hrest].
    assert (Hcv : le c v = true /\ forall b0, b = Some b0 -> le b0 v = true).
    { destruct b as [b|]; simpl in Hbest.
      - destruct (gt c b) eqn:E.
        + split; [now apply Hbest|]. intros b0 E0. inversion E0; subst.
          apply le_trans with c; [now apply lt_le | now apply Hbest].
        + split.
          * apply le_trans with b; [|now apply Hbest].
            apply not_lt_le; auto.
          * intros b0 E0. now apply Hbest.
      - split; [now apply Hbest | discriminate]. }
    destruct Hcv as [Hcv Hbv]. split; [exact Hbv|].
    intros c' [<-|Hin]; auto.
Qed.

(** [best_of] returns nothing on no reading, and a maximum otherwise. *)
Lemma best_of_max (l : list number) :
  all_numbers l ->
  (l = [] -> best_of l = None)
  /\ (l <> [] -> exists v, best_of l = Some v /\ is_max_of l v).
Proof.
  intros Hl. split; [now intros ->|].
  intros Hne. destruct l as [|c l]; [contradiction|].
  unfold best_of. simpl.
  destruct (fold_best_some l c) as [v Hv]. exists v. split; [exact Hv|].
  assert (H : fold_left update_best (c :: l) None = Some v) by exact Hv.
  split.
  - destruct (fold_best_member _ _ _ H) as [?|?]; [discriminate | assumption].
  - apply (fold_best_upper _ None v Hl); [discriminate | exact H].
Qed.

(** ** Rounding never produces NaN and keeps the sign *)

Lemma shr_1_nonneg (mrs : shr_record) : 0 <= shr_m mrs -> 0 <= shr_m (shr_1 mrs).
Proof.
  destruct mrs as [m r s]; simpl.
  destruct m as [|p|p]; [ | destruct p | ]; simpl; lia.
Qed.

Lemma iter_pos_invariant {A} (P : A -> Prop) (f : A -> A) :
  (forall x, P x -> P (f x)) -> forall p x, P x -> P (iter_pos f p x).
Proof.
  intros Hf. induction p as [p IH|p IH|]; intros x Hx; simpl; auto.
Qed.

Lemma shr_nonneg (mrs : shr_record) (e n : Z) :
  0 <= shr_m mrs -> 0 <= shr_m (fst (shr mrs e n)).
Proof.
  intros H. destruct n as [|p|p]; simpl; auto.
  apply (iter_pos_invariant (fun r => 0 <= shr_m r)); auto using shr_1_nonneg.
Qed.

Lemma shr_record_of_loc_m (m : Z) (l : location) : shr_m (shr_record_of_loc m l) = m.
Proof. destruct l as [|[]]; reflexivity. Qed.

Lemma shr_fexp_nonneg (m e : Z) (l : location) :
  0 <= m -> 0 <= shr_m (fst (shr_fexp prec emax m e l)).
Proof.
  intros H. unfold shr_fexp. apply shr_nonneg. now rewrite shr_record_of_loc_m.
Qed.

Lemma round_nearest_even_nonneg (m : Z) (l : location) :
  0 <= m -> 0 <= round_nearest_even m l.
Proof.
  intros H. unfold round_nearest_even.
  destruct l as [|[]]; try destruct (Z.even m); lia.
Qed.

Lemma binary_round_aux_signed (s : bool) (m e : Z) (l : location) :
  0 <= m -> signed_as s (binary_round_aux prec emax s m e l).
Proof.
  intros H. unfold binary_round_aux.
  pose proof (shr_fexp_nonneg m e l H) as H1.
  destruct (shr_fexp prec emax m e l) as [mrs' e']. simpl in H1.
  pose proof (shr_fexp_nonneg _ e' loc_Exact
                (round_nearest_even_nonneg _ (loc_of_shr_record mrs') H1)) as H2.
  destruct (shr_fexp prec emax _ e' loc_Exact) as [mrs'' e'']. simpl in H2.
  destruct (shr_m mrs'') as [|p|p]; [constructor | | lia].
  destruct (e'' <=? emax - prec); constructor.
Qed.

Lemma binary_round_signed (s : bool) (m : positive) (e : Z) :
  signed_as s (binary_round prec emax s m e).
Proof.
  unfold binary_round. destruct (shl_align m e _) as [mz ez].
  apply binary_round_aux_signed. lia.
Qed.

Lemma div_core_nonneg (m1 m2 : positive) (e1 e2 : Z) :
  0 <= fst (fst (SFdiv_core_binary prec emax (Zpos m1) e1 (Zpos m2) e2)).
Proof.
  unfold SFdiv_core_binary.
  set (s := e1 - e2 - _).
  set (m' := match s with Z0 => Zpos m1 | Zpos _ => Z.shiftl (Zpos m1) s | Zneg _ => 0 end).
  assert (Hm : 0 <= m').
  { subst m'. destruct s; try lia. apply Z.shiftl_nonneg. lia. }
  pose proof (Z.div_pos m' (Zpos m2) Hm ltac:(lia)) as Hq.
  unfold Z.div in Hq. destruct (Z.div_eucl m' (Zpos m2)) as [q r]. exact Hq.
Qed.

Lemma of_ratio_signed (s : bool) (p q : positive) : signed_as s (of_ratio s p q).
Proof.
  unfold of_ratio. pose proof (div_core_nonneg p q 0 0) as H.
  destruct (SFdiv_core_binary prec emax (Zpos p) 0 (Zpos q) 0) as [[mz ez] lz].
  apply binary_round_aux_signed. exact H.
Qed.

Lemma of_decimal_signed (s : bool) (m : N) (e : Z) : signed_as s (of_decimal s m e).
Proof.
  unfold of_decimal. destruct m as [|p]; [constructor|].
  destruct e; auto using binary_round_signed, of_ratio_signed.
Qed.

Lemma signed_as_not_nan (s : bool) (x : number) : signed_as s x -> isNaN x = false.
Proof. now destruct 1. Qed.

Lemma of_decimal_not_nan (s : bool) (m : N) (e : Z) : isNaN (of_decimal s m e) = false.
Proof. exact (signed_as_not_nan _ _ (of_decimal_signed s m e)). Qed.

(** A number with the sign bit set is not above zero. *)
Lemma negative_not_positive (x : number) : signed_as true x -> gt x (of_Z 0) = false.
Proof. now destruct 1. Qed.

(** Dividing by a finite number that is not zero keeps a number a number. *)
Lemma div_finite_not_nan (x : number) (s : bool) (m : positive) (e : Z) :
  isNaN x = false -> isNaN (div x (S754_finite s m e)) = false.
Proof.
  destruct x as [sx|sx| |sx mx ex]; simpl; try reflexivity; try discriminate.
  intros _. pose proof (div_core_nonneg mx m ex e) as H.
  destruct (SFdiv_core_binary prec emax (Zpos mx) ex (Zpos m) e) as [[mz ez] lz].
  exact (signed_as_not_nan _ _ (binary_round_aux_signed _ _ _ _ H)).
Qed.

(** ** Parsing and printing *)

Lemma digit_char_digit (d : N) : (d < 10)%N -> digit_of (digit_char d) = Some d.
Proof.
  intros H.
  assert (E : (d = 0 \/ d = 1 \/ d = 2 \/ d = 3 \/ d = 4 \/ d = 5 \/ d = 6
               \/ d = 7 \/ d = 8 \/ d = 9)%N) by lia.
  repeat destruct E as [->|E]; try reflexivity. subst. reflexivity.
Qed.

(** A digit is neither white space nor a sign nor the head of [Infinity]. *)
Lemma digit_head (c : ascii) (r : string) (d : N) :
  digit_of c = Some d ->
  is_ws c = false
  /\ read_sign (String c r) = (false, String c r)
  /\ prefix "Infinity" (String c r) = false.
Proof.
  destruct c as [[] [] [] [] [] [] [] []]; vm_compute; try discriminate; auto.
Qed.

Lemma dec_digits_head (fuel : nat) (n : N) (acc : string) :
  fuel <> O \/ starts_with_digit acc -> starts_with_digit (dec_digits fuel n acc).
Proof.
  revert n acc. induction fuel as [|f IH]; intros n acc H; simpl.
  - destruct H as [H|H]; [contradiction | exact H].
  - assert (Hacc : starts_with_digit (String (digit_char (n mod 10)) acc)).
    { exists (digit_char (n mod 10)), acc, (n mod 10)%N. split; [reflexivity|].
      apply digit_char_digit. apply N.mod_lt. discriminate. }
    destruct (n / 10 =? 0)%N; auto.
Qed.

Lemma dec_string_head (n : N) : starts_with_digit (dec_string n).
Proof. unfold dec_string. apply dec_digits_head. left. discriminate. Qed.

Lemma starts_with_digit_app (s t : string) :
  starts_with_digit s -> starts_with_digit (s ++ t).
Proof. intros (c & r & d & -> & H). exists c, (r ++ t), d. auto. Qed.

Lemma span_digits_count (s : string) (acc : N) (cnt : nat) :
  (cnt <= snd (fst (span_digits s acc cnt)))%nat.
Proof.
  revert acc cnt. induction s as [|c r IH]; intros acc cnt; cbn [span_digits].
  - simpl. lia.
  - destruct (digit_of c) as [d|]; [|simpl; lia].
    apply Nat.le_trans with (S cnt); [lia | apply IH].
Qed.

Lemma span_digits_head (s : string) (acc : N) (cnt : nat) :
  starts_with_digit s -> (S cnt <= snd (fst (span_digits s acc cnt)))%nat.
Proof.
  intros (c & r & d & -> & H). cbn [span_digits]. rewrite H. apply span_digits_count.
Qed.

(** A literal that starts with a digit, signed or not, parses to a number. *)
Lemma parseFloat_digits (neg : bool) (s : string) :
  starts_with_digit s ->
  isNaN (parseFloat ((if neg then "-" else "") ++ s)) = false.
Proof.
  intros Hs.
  assert (H : exists sg, read_sign (trimStart ((if neg then "-" else "") ++ s)) = (sg, s)).
  { destruct Hs as (c & r & d & -> & Hd).
    destruct (digit_head c r d Hd) as (Hws & Hsign & _).
    destruct neg; simpl.
    - eauto.
    - rewrite Hws. rewrite Hsign. eauto. }
  destruct H as [sg H]. unfold parseFloat. rewrite H.
  assert (Hinf : prefix "Infinity" s = false).
  { destruct Hs as (c & r & d & -> & Hd). now destruct (digit_head c r d Hd) as (_ & _ & ?). }
  rewrite Hinf.
  pose proof (span_digits_head s 0%N 0%nat Hs) as Hcnt.
  destruct (span_digits s 0 0) as [[iv icnt] s2]. simpl in Hcnt.
  destruct (read_fraction s2 iv) as [[fv fcnt] s3].
  destruct (Nat.eqb_spec (icnt + fcnt) 0) as [E|_]; [lia|].
  apply of_decimal_not_nan.
Qed.

Lemma toFixed1_parses (x : number) :
  isFinite x = true -> isNaN (parseFloat (toFixed1 x)) = false.
Proof.
  destruct x as [s|s| |s m e]; try discriminate; intros _.
  - reflexivity.
  - unfold toFixed1. apply parseFloat_digits.
    apply starts_with_digit_app, dec_string_head.
Qed.

Lemma plausible_finite (c : number) : plausible c = true -> isFinite c = true.
Proof.
  destruct c as [s|[]| |s m e]; try (intros _; reflexivity);
    vm_compute; discriminate.
Qed.

Lemma empty_label_no_match (t : string) :
  is_empty t = true -> ci_test lhm_labels t = false.
Proof. destruct t; [reflexivity | discriminate]. Qed.

(** ** Sequencing of probes *)

Ltac unfold_m :=
  unfold orElse, try_catch, bind, ret, lift, logger, elapse, execSync, Date_now, sleep in *.

Lemma orElse_some {A} (a b : M (option A)) (w w1 : world) (v : A) :
  a w = (Ok (Some v), w1) -> orElse a b w = (Ok (Some v), w1).
Proof. intros H. unfold_m. now rewrite H. Qed.

Lemma orElse_none {A} (a b : M (option A)) (w w1 : world) :
  a w = (Ok None, w1) -> orElse a b w = b w1.
Proof. intros H. unfold_m. now rewrite H. Qed.

Lemma orElse_assoc {A} (a b c : M (option A)) (w : world) :
  orElse (orElse a b) c w = orElse a (orElse b c) w.
Proof.
  unfold_m. destruct (a w) as [[[v|]|e] w1]; try reflexivity.
Qed.

Lemma orElse_ext {A} (a b b' : M (option A)) :
  (forall w, b w = b' w) -> forall w, orElse a b w = orElse a b' w.
Proof.
  intros H w. unfold_m. destruct (a w) as [[[v|]|e] w1]; auto.
Qed.

Lemma orElse_ret_none {A} (a : M (option A)) (w : world) :
  orElse a (ret None) w = a w.
Proof. unfold_m. destruct (a w) as [[[v|]|e] w1]; reflexivity. Qed.

(** The resolver is the first success of its probe chain. *)
Lemma getCpuTemperature_chain (env : Env) (w : world) :
  getCpuTemperature env w = firstSuccess (probeChain env) w.
Proof.
  unfold getCpuTemperature, probeChain, windowsChain.
  destruct (String.eqb (platform env) "win32"); cbn [app firstSuccess].
  - apply orElse_ext. intros w1. rewrite orElse_assoc.
    apply orElse_ext. intros w2. rewrite orElse_assoc.
    apply orElse_ext. intros w3.
    apply orElse_ext. intros w4. now rewrite orElse_ret_none.
  - apply orElse_ext. intros w1. rewrite orElse_ret_none. reflexivity.
Qed.

Lemma firstSuccess_sound (chain : list (M (option number))) :
  Forall sound_probe chain ->
  forall w, exists r w',
    firstSuccess chain w = (Ok r, w')
    /\ match r with
       | Some v =>
           isNaN v = false
           /\ exists probe w1 w2, In probe chain /\ probe w1 = (Ok (Some v), w2)
       | None =>
           forall probe, In probe chain -> exists w1 w2, probe w1 = (Ok None, w2)
       end.
Proof.
  induction 1 as [|probe rest Hp _ IH]; intros w.
  - exists None, w. split; [reflexivity | contradiction].
  - cbn [firstSuccess]. destruct (Hp w) as (r & w1 & Hr & Hnan).
    destruct r as [v|].
    + exists (Some v), w1. split; [now apply orElse_some|].
      split; [now apply Hnan|]. exists probe, w, w1. simpl. auto.
    + destruct (IH w1) as (r & w2 & Hrest & Hspec).
      exists r, w2. split; [now rewrite (orElse_none _ _ _ _ Hr)|].
      destruct r as [v|].
      * destruct Hspec as (Hv & p & wa & wb & Hin & Hrun).
        split; [exact Hv|]. exists p, wa, wb. simpl. auto.
      * intros p [<-|Hin]; eauto.
Qed.

(** ** Each probe returns, and what it yields is a number *)

Lemma libraryProbe_sound (env : Env) : sound_probe (libraryProbe env).
Proof.
  intros w. unfold libraryProbe. unfold_m.
  destruct (si_cpuTemperature env) as [[main|]|e]; simpl.
  - destruct (isNaN main) eqn:E; simpl; eexists _, _; split; try reflexivity.
    + discriminate.
    + intros v Hv. inversion Hv; subst. exact E.
  - eexists _, _; split; [reflexivity | discriminate].
  - eexists _, _; split; [reflexivity | discriminate].
Qed.

(** *** The conversion of a label *)

Lemma join_cons (o o' : outcome string) (os : list (outcome string)) :
  join (o :: o' :: os)
  = and_then o (fun s => and_then (join (o' :: os)) (fun r => Ok (s ++ "," ++ r))).
Proof. reflexivity. Qed.

Lemma joined_cons (p p' : option string) (ps : list (option string)) :
  joined (p :: p' :: ps)
  = match p, joined (p' :: ps) with
    | Some s, Some r => Some (s ++ "," ++ r)
    | _, _ => None
    end.
Proof. reflexivity. Qed.

Lemma join_joined (os : list (outcome string)) (ps : list (option string)) :
  Forall2 (fun o p => forall s, o = Ok s -> p = Some s) os ps ->
  forall s, join os = Ok s -> joined ps = Some s.
Proof.
  induction 1 as [|o p os ps Hop Hrest IH]; intros s.
  - cbn. now inversion 1.
  - destruct Hrest as [|o' p' os ps Hop' Hrest].
    + cbn. apply Hop.
    + rewrite join_cons, joined_cons.
      destruct o as [s1|e]; cbn [and_then]; [|easy].
      rewrite (Hop s1 eq_refl).
      destruct (join (o' :: os)) as [r|e]; cbn [and_then]; [|easy].
      rewrite (IH r eq_refl). now inversion 1.
Qed.

Lemma joined_join (os : list (outcome string)) (ps : list (option string)) :
  Forall2 (fun o p => forall s, p = Some s -> o = Ok s) os ps ->
  forall s, joined ps = Some s -> join os = Ok s.
Proof.
  induction 1 as [|o p os ps Hop Hrest IH]; intros s.
  - cbn. now inversion 1.
  - destruct Hrest as [|o' p' os ps Hop' Hrest].
    + cbn. apply Hop.
    + rewrite join_cons, joined_cons.
      destruct p as [s1|]; [|easy].
      rewrite (Hop s1 eq_refl). cbn [and_then].
      destruct (joined (p' :: ps)) as [r|]; [|easy].
      rewrite (IH r eq_refl). cbn [and_then]. now inversion 1.
Qed.

(** A conversion that returns gives the string of the label. *)
Lemma ToString_text_of (room : nat) :
  forall v s, ToString room v = Ok s -> text_of v = Some s.
Proof.
  induction room as [|room IH]; intros v s H; [discriminate|].
  destruct v as [|b|n|t|items|members]; cbn [ToString text_of] in H |- *;
    try (now inversion H).
  - revert s H. apply join_joined.
    induction items as [|x items IHitems]; cbn [map]; constructor; [|exact IHitems].
    intros s. destruct x; try (now inversion 1); apply IH.
  - destruct (field "toString" members); [discriminate | now inversion H].
Qed.

Lemma list_max_in (x : nat) (l : list nat) : In x l -> (x <= list_max l)%nat.
Proof.
  induction l as [|y l IH]; [contradiction|].
  intros [->|Hin]; cbn [list_max].
  - apply Nat.le_max_l.
  - apply Nat.le_trans with (list_max l); [now apply IH | apply Nat.le_max_r].
Qed.

Lemma depth_item (items : list json) (x : json) :
  In x items -> (depth x < depth (JArray items))%nat.
Proof.
  intros Hin. cbn [depth]. apply Nat.lt_succ_r, list_max_in.
  now apply in_map.
Qed.

Lemma field_in (key : string) (members : list (string * json)) (v : json) :
  field key members = Some v -> exists k, In (k, v) members.
Proof.
  induction members as [|[k x] members IH]; [discriminate|].
  cbn [field]. destruct (field key members) as [v'|].
  - intros E. inversion E; subst. destruct (IH eq_refl) as [k' Hin].
    exists k'. now right.
  - destruct (String.eqb key k); [|discriminate].
    intros E. inversion E; subst. exists k. now left.
Qed.

Lemma depth_field (key : string) (members : list (string * json)) (v : json) :
  field key members = Some v -> (depth v < depth (JObject members))%nat.
Proof.
  intros Hf. destruct (field_in _ _ _ Hf) as [k Hin].
  cbn [depth]. apply Nat.lt_succ_r, list_max_in.
  apply (in_map (fun kv => depth (snd kv)) _ _ Hin).
Qed.

(** With room beyond its depth, a label that has a string converts to it. *)
Lemma text_of_ToString (room : nat) :
  forall v s, (depth v < room)%nat -> text_of v = Some s -> ToString room v = Ok s.
Proof.
  induction room as [|room IH]; intros v s Hd H; [inversion Hd|].
  destruct v as [|b|n|t|items|members]; cbn [ToString text_of] in H |- *;
    try (now inversion H).
  - assert (Hitems : forall x, In x items -> (depth x < room)%nat).
    { intros x Hin. pose proof (depth_item items x Hin). lia. }
    clear Hd. revert s H. apply joined_join.
    induction items as [|x items IHitems]; cbn [map]; constructor.
    + intros s. destruct x; try (now inversion 1);
        apply IH; apply Hitems; now left.
    + apply IHitems. intros y Hy. apply Hitems. now right.
  - destruct (field "toString" members); [discriminate | now inversion H].
Qed.

Lemma test_label_matches (room : nat) (text : option json) (b : bool) :
  test_label room text = Ok b -> label_matches text = b.
Proof.
  destruct text as [t|]; cbn [test_label label_matches]; [|now inversion 1].
  destruct (truthy t); cbn [andb]; [|now inversion 1].
  destruct (ToString room t) as [s|e] eqn:E; cbn [and_then]; [|easy].
  rewrite (ToString_text_of _ _ _ E). now inversion 1.
Qed.

(** *** The walk *)

Lemma reading_number (n : json) (c : number) : reading n = Some c -> isNaN c = false.
Proof.
  destruct n as [| | | | |members]; cbn [reading]; try easy.
  destruct (label_matches (field "Text" members)); [|easy].
  destruct (field "Value" members) as [[| |v| | |]|]; try easy.
  intros E. inversion E. apply of_decimal_not_nan.
Qed.

Lemma readings_numbers (j : json) (l : list number) : readings_of j l -> all_numbers l.
Proof.
  intros H. unfold all_numbers. rewrite Forall_forall. intros c Hin.
  destruct (proj1 (H c) Hin) as (n & _ & Hr). apply (reading_number n c Hr).
Qed.

Lemma for_of_walk (room : nat) (children : list json) :
  (forall j best r, In j children -> walk room j best = Ok r ->
     exists l, r = fold_left update_best l best /\ readings_of j l) ->
  forall best r,
    for_of (fun b child => walk room child b) children best = Ok r ->
    exists l, r = fold_left update_best l best
              /\ forall c, In c l <->
                   exists child n, In child children /\ node_of child n /\ reading n = Some c.
Proof.
  induction children as [|x children IH]; intros Hx best r.
  - cbn [for_of]. intros E. inversion E; subst. exists []. split; [reflexivity|].
    intros c. split; [contradiction|]. intros (child & _ & [] & _).
  - cbn [for_of]. destruct (walk room x best) as [b1|e] eqn:E; cbn [and_then]; [|easy].
    intros Hrest.
    destruct (Hx x best b1 (or_introl eq_refl) E) as (l1 & -> & H1).
    destruct (IH (fun j b r0 Hin => Hx j b r0 (or_intror Hin)) _ _ Hrest) as (l2 & -> & H2).
    exists (l1 ++ l2)%list. split; [now rewrite fold_left_app|].
    intros c. rewrite in_app_iff. split.
    + intros [Hc|Hc].
      * apply H1 in Hc. destruct Hc as (n & Hn & Hr).
        exists x, n. auto using in_eq.
      * apply H2 in Hc. destruct Hc as (child & n & Hin & Hn & Hr).
        exists child, n. auto using in_cons.
    + intros (child & n & [<-|Hin] & Hn & Hr).
      * left. apply H1. eauto.
      * right. apply H2. eauto.
Qed.

(** A walk that returns has folded the best-of selection over the readings
    of the nodes of the tree. *)
Lemma walk_fold (room : nat) :
  forall j best r,
    walk room j best = Ok r ->
    exists l, r = fold_left update_best l best /\ readings_of j l.
Proof.
  induction room as [|room IH]; intros j best r H; [discriminate|].
  destruct j as [|b|n|t|items|members]; cbn [walk] in H;
    try (inversion H; subst; exists []; split; [reflexivity|];
         intros c; split; [contradiction|];
         intros (n' & Hn & Hr); inversion Hn; subst; discriminate).
  destruct (test_label room (field "Text" members)) as [matched|e] eqn:Et;
    cbn [and_then] in H; [|discriminate].
  apply test_label_matches in Et.
  set (head := match reading (JObject members) with Some c => [c] | None => [] end).
  assert (Hhead : match matched, field "Value" members with
                   | true, Some (JNumber value) => update_best best (jvalue value)
                   | _, _ => best
                   end = fold_left update_best head best).
  { unfold head. cbn [reading]. rewrite Et.
    destruct matched; [|reflexivity].
    destruct (field "Value" members) as [[| |v| | |]|]; reflexivity. }
  rewrite Hhead in H. clear Hhead.
  assert (Hroot : forall c, In c head <-> reading (JObject members) = Some c).
  { intros c. unfold head. destruct (reading (JObject members)) as [c0|].
    - split; [intros [->|[]]; reflexivity | intros E; inversion E; now left].
    - split; [contradiction | discriminate]. }
  destruct (field "Children" members) as [[| | | |children|]|] eqn:Ec;
    try (inversion H; subst; exists head; split; [reflexivity|];
         intros c; split;
         [intros Hr; apply Hroot in Hr; exists (JObject members);
          split; [constructor | exact Hr]
         |intros (n' & Hn & Hr); apply Hroot; inversion Hn; subst;
          [exact Hr | congruence]]).
  destruct (for_of_walk room children (fun j b r0 _ => IH j b r0) _ _ H)
    as (l2 & -> & H2).
  exists (head ++ l2)%list. split; [now rewrite fold_left_app|].
  intros c. rewrite in_app_iff. split.
  - intros [Hc|Hc].
    + apply Hroot in Hc. exists (JObject members). split; [constructor | exact Hc].
    + apply H2 in Hc. destruct Hc as (child & n & Hin & Hn & Hr).
      exists n. split; [|exact Hr]. now apply (node_below members children child n).
  - intros (n & Hn & Hr). inversion Hn as [|? cs child ? Hc Hin Hn']; subst.
    + left. now apply Hroot.
    + right. apply H2. rewrite Ec in Hc. inversion Hc; subst. eauto.
Qed.

Lemma walk_number (room : nat) (j : json) (v : number) :
  walk room j None = Ok (Some v) -> isNaN v = false.
Proof.
  intros H. destruct (walk_fold room j None _ H) as (l & E & Hl).
  symmetry in E. destruct (fold_best_member _ _ _ E) as [?|Hin]; [discriminate|].
  pose proof (readings_numbers j l Hl) as Hall.
  unfold all_numbers in Hall. rewrite Forall_forall in Hall. now apply Hall.
Qed.

(** What a walk returns: nothing when no node has a reading, and otherwise
    the maximum of the readings. *)
Lemma walk_max (room : nat) (j : json) (r : option number) :
  walk room j None = Ok r ->
  match r with
  | Some v => is_max_reading j v
  | None => forall n, node_of j n -> reading n = None
  end.
Proof.
  intros H. destruct (walk_fold room j None r H) as (l & -> & Hl).
  destruct (best_of_max l (readings_numbers j l Hl)) as [Hnil Hmax].
  change (fold_left update_best l None) with (best_of l).
  destruct l as [|c l].
  - rewrite (Hnil eq_refl). intros n Hn.
    destruct (reading n) as [c|] eqn:Hr; [|reflexivity].
    destruct (proj2 (Hl c) (ex_intro _ n (conj Hn Hr))).
  - destruct (Hmax ltac:(discriminate)) as (v & -> & Hin & Hup). split.
    + apply Hl, Hin.
    + intros n c0 Hn Hr. apply Hup. apply Hl. eauto.
Qed.

(** A walk returns exactly when it completes. *)
Lemma for_of_completes (room : nat) (children : list json) :
  (forall j best, In j children ->
     (exists r, walk room j best = Ok r) <-> completes room j = true) ->
  forall best,
    (exists r, for_of (fun b child => walk room child b) children best = Ok r)
    <-> forallb (completes room) children = true.
Proof.
  induction children as [|x children IH]; intros Hx best; cbn [for_of forallb].
  - split; eauto.
  - rewrite Bool.andb_true_iff.
    rewrite <- (Hx x best (or_introl eq_refl)).
    destruct (walk room x best) as [b1|e]; cbn [and_then].
    + rewrite (IH (fun j b Hin => Hx j b (or_intror Hin)) b1).
      split; [intros H; split; eauto | intros [_ H]; exact H].
    + split; [intros [r Hr]; discriminate | intros [[r Hr] _]; discriminate].
Qed.

Lemma walk_completes (room : nat) :
  forall j best, (exists r, walk room j best = Ok r) <-> completes room j = true.
Proof.
  induction room as [|room IH]; intros j best.
  - cbn. split; [intros [r Hr]; discriminate | discriminate].
  - destruct j as [|b|n|t|items|members]; cbn [walk completes];
      try solve [split; eauto].
    destruct (test_label room (field "Text" members)) as [matched|e];
      cbn [and_then andb].
    + destruct (field "Children" members) as [[| | | |children|]|];
        try solve [split; eauto].
      apply for_of_completes. intros j b _. apply IH.
    + split; [intros [r Hr]; discriminate | discriminate].
Qed.

(** A tree whose labels convert completes within its depth. *)
Lemma convertible_child (members : list (string * json)) (children : list json) (child : json) :
  field "Children" members = Some (JArray children) -> In child children ->
  convertible (JObject members) -> convertible child.
Proof.
  intros Hc Hin H n ms t Hn. apply H.
  now apply (node_below members children child n).
Qed.

Lemma completes_within_depth (room : nat) :
  forall j, (depth j < room)%nat -> convertible j -> completes room j = true.
Proof.
  induction room as [|room IH]; intros j Hd Hconv; [inversion Hd|].
  destruct j as [|b|n|t|items|members]; cbn [completes]; try reflexivity.
  apply Bool.andb_true_iff. split.
  - destruct (field "Text" members) as [t|] eqn:Et; cbn [test_label]; [|reflexivity].
    destruct (truthy t) eqn:Etr; [|reflexivity].
    pose proof (Hconv (JObject members) members t (node_root _) eq_refl Et Etr) as Hs.
    destruct (text_of t) as [s|] eqn:Es; [|contradiction].
    rewrite (text_of_ToString room t s); [reflexivity| |exact Es].
    pose proof (depth_field _ _ _ Et). lia.
  - destruct (field "Children" members) as [[| | | |children|]|] eqn:Ec; try reflexivity.
    apply forallb_forall. intros child Hin. apply IH.
    + pose proof (depth_field _ _ _ Ec). pose proof (depth_item _ _ Hin). lia.
    + apply (convertible_child members children child Ec Hin Hconv).
Qed.

Lemma lhmProbe_sound (env : Env) : sound_probe (lhmProbe env).
Proof.
  intros w. unfold lhmProbe.
  destruct (LHM_JSON_PATH env) as [path|];
    [|eexists _, _; split; [reflexivity | discriminate]].
  destruct (negb (is_empty path) && existsSync env path)%bool;
    [|eexists _, _; split; [reflexivity | discriminate]].
  unfold_m.
  destruct (readFileSync env path) as [text|e];
    [|eexists _, _; split; [reflexivity | discriminate]].
  destruct (JSON_parse env text) as [j|e];
    [|eexists _, _; split; [reflexivity | discriminate]].
  destruct (walk (stack_room env) j None) as [r|e] eqn:E;
    [|eexists _, _; split; [reflexivity | discriminate]].
  eexists _, _; split; [reflexivity|].
  intros v Hv. inversion Hv; subst. apply (walk_number _ _ _ E).
Qed.

Lemma ohmProbe_sound (env : Env) : sound_probe (ohmProbe env).
Proof.
  intros w. unfold ohmProbe. unfold_m.
  destruct (child_process env (calls w) (powershell psScript)) as [o|e];
    [|eexists _, _; split; [reflexivity | discriminate]].
  destruct (negb (is_empty (trim o)));
    [|eexists _, _; split; [reflexivity | discriminate]].
  destruct (isNaN (parseFloat (trim o))) eqn:E; simpl;
    eexists _, _; split; try reflexivity; try discriminate.
  intros v Hv. inversion Hv; subst. exact E.
Qed.

Lemma acpiConvert_number (raw : string) (v : number) :
  acpiConvert raw = Some v -> isNaN v = false.
Proof.
  unfold acpiConvert.
  destruct (negb (is_empty raw)); [|discriminate].
  destruct (negb (isNaN (parseInt raw)) && gt (parseInt raw) (of_Z 0))%bool; [|discriminate].
  destruct (plausible _) eqn:E; [|discriminate].
  intros H. inversion H; subst. apply toFixed1_parses, plausible_finite, E.
Qed.

Lemma acpiProbe_sound (env : Env) : sound_probe (acpiProbe env).
Proof.
  intros w. unfold acpiProbe. unfold_m.
  destruct (child_process env (calls w) (powershell wmiScript)) as [o|e];
    [|eexists _, _; split; [reflexivity | discriminate]].
  eexists _, _; split; [reflexivity|]. apply acpiConvert_number.
Qed.

Lemma of_Z_1000_finite : exists m e, of_Z 1000 = S754_finite false m e.
Proof. eexists _, _. vm_compute. reflexivity. Qed.

Lemma celsius_number (milli : number) :
  isNaN milli = false -> isNaN (div milli (of_Z 1000)) = false.
Proof.
  destruct of_Z_1000_finite as (m & e & ->). apply div_finite_not_nan.
Qed.

Lemma update_best_number (best : option number) (c : number) :
  (forall v, best = Some v -> isNaN v = false) -> isNaN c = false ->
  forall v, update_best best c = Some v -> isNaN v = false.
Proof.
  intros Hb Hc v. destruct best as [b|]; simpl; [destruct (gt c b)|];
    intros H; inversion H; subst; auto.
Qed.

Lemma scanZone_number (env : Env) (best : option number) (z : string) :
  (forall v, best = Some v -> isNaN v = false) ->
  forall v, scanZone env best z = Some v -> isNaN v = false.
Proof.
  intros Hb v. unfold scanZone.
  destruct (negb (existsSync env _) || negb (existsSync env _))%bool; [apply Hb|].
  destruct (readFileSync env _) as [t|e]; [|apply Hb].
  destruct (ci_test zone_labels (trim t)); [|apply Hb].
  destruct (readFileSync env _) as [r|e]; [|apply Hb].
  destruct (isNaN (parseInt (trim r))) eqn:E; simpl; [apply Hb|].
  apply update_best_number; [exact Hb | now apply celsius_number].
Qed.

Lemma zoneScan_sound (env : Env) : sound_probe (zoneScan env).
Proof.
  intros w. unfold zoneScan. unfold_m.
  destruct (negb (existsSync env basePath));
    [eexists _, _; split; [reflexivity | discriminate]|].
  destruct (readdirSync env basePath) as [entries|e];
    [|eexists _, _; split; [reflexivity | discriminate]].
  eexists _, _; split; [reflexivity|].
  generalize (filter (startsWith "thermal_zone") entries). intros zones.
  assert (H : forall v, @None number = Some v -> isNaN v = false) by discriminate.
  revert H. generalize (@None number) as best.
  induction zones as [|z zones IH]; intros best Hb; cbn [fold_left]; [exact Hb|].
  apply IH. now apply scanZone_number.
Qed.

Lemma probeChain_sound (env : Env) : Forall sound_probe (probeChain env).
Proof.
  unfold probeChain. constructor; [apply libraryProbe_sound|].
  apply Forall_app. split.
  - destruct (String.eqb (platform env) "win32"); repeat constructor;
      auto using lhmProbe_sound, ohmProbe_sound, acpiProbe_sound.
  - repeat constructor. apply zoneScan_sound.
Qed.

Lemma cpu_resolver_sound (env : Env) (w : world) :
  exists r w',
    getCpuTemperature env w = (Ok r, w')
    /\ match r with
       | Some v =>
           isNaN v = false
           /\ exists probe w1 w2,
               In probe (probeChain env) /\ probe w1 = (Ok (Some v), w2)
       | None =>
           forall probe, In probe (probeChain env) ->
             exists w1 w2, probe w1 = (Ok None, w2)
       end.
Proof.
  rewrite getCpuTemperature_chain.
  apply firstSuccess_sound, probeChain_sound.
Qed.

(** ** The CPU temperature resolver *)

(** C1, as stated, fails: when the library reports 200 the resolver returns
    200, a finite value outside the plausible range, although no probe of
    the chain yields a value inside it; and when the library reports
    [Infinity] the resolver returns [Infinity]. *)
Lemma cpu_resolver_unfiltered :
  getCpuTemperature (libraryEnv (of_Z 200)) world0 = (Ok (Some (of_Z 200)), world0)
  /\ plausible (of_Z 200) = false
  /\ (forall probe w v w',
         In probe (probeChain (libraryEnv (of_Z 200))) ->
         probe w = (Ok (Some v), w') -> plausible v = false)
  /\ getCpuTemperature (libraryEnv Infinity) world0 = (Ok (Some Infinity), world0)
  /\ isFinite Infinity = false.
Proof.
  split; [vm_compute; reflexivity|]. split; [vm_compute; reflexivity|].
  split; [|split; vm_compute; reflexivity].
  intros probe w v w' Hin Hrun.
  change (probeChain (libraryEnv (of_Z 200)))
    with [libraryProbe (libraryEnv (of_Z 200)); zoneScan (libraryEnv (of_Z 200))] in Hin.
  destruct Hin as [<-|[<-|[]]].
  - unfold libraryProbe, libraryEnv in Hrun. unfold_m.
    cbn [si_cpuTemperature cpu_ms] in Hrun.
    change (isNaN (of_Z 200)) with false in Hrun. cbn [negb] in Hrun.
    inversion Hrun; subst. vm_compute. reflexivity.
  - unfold zoneScan, libraryEnv in Hrun. unfold_m.
    cbn [existsSync negb] in Hrun. discriminate.
Qed.

(** C1 (amended): every run of the CPU temperature resolver returns, and
    it returns the first value of its probe chain: a value only if some
    probe of the chain yields that value, which is then not NaN (the
    plausible range is applied by the ACPI probe alone, and an infinite
    reading of another probe is passed on); absent only if every probe
    yields nothing. *)
Theorem cpu_resolver_first_success (env : Env) (w : world) :
  exists r w',
    getCpuTemperature env w = (Ok r, w')
    /\ match r with
       | Some v =>
           isNaN v = false
           /\ exists probe w1 w2,
               In probe (probeChain env) /\ probe w1 = (Ok (Some v), w2)
       | None =>
           forall probe, In probe (probeChain env) ->
             exists w1 w2, probe w1 = (Ok None, w2)
       end.
Proof. apply cpu_resolver_sound. Qed.

(** C2, as stated, fails on its example: raw 3281 is 328.1 K, which the
    formula takes to 54.950000000000045 (not 55.05) and [toFixed(1)] to
    55.0, so the resolver returns 55 and not 55.1. *)
Lemma acpi_3281_gives_55_0 :
  acpiConvert "3281" = Some (of_Z 55)
  /\ sub (div (parseInt "3281") (of_Z 10)) n273_15
     = of_decimal false 54950000000000045 (-15)
  /\ toFixed1 (sub (div (parseInt "3281") (of_Z 10)) n273_15) = "55.0"
  /\ lt (of_Z 55) (of_decimal false 551 (-1)) = true
  /\ fst (getCpuTemperature (windowsEnv None (Throw "no OHM") (Ok ("3281" ++ nl))) world0)
     = Ok (Some (of_Z 55)).
Proof. repeat split; vm_compute; reflexivity. Qed.

Lemma parseInt_signed (raw : string) (neg : bool) (n : N) :
  parse_int raw = Some (neg, n) -> signed_as neg (parseInt raw).
Proof. unfold parseInt. intros ->. apply of_decimal_signed. Qed.

Lemma not_above_zero (neg : bool) (n : N) :
  n = 0%N \/ neg = true -> gt (of_decimal neg n 0) (of_Z 0) = false.
Proof.
  intros [->| ->].
  - now destruct neg.
  - apply negative_not_positive, of_decimal_signed.
Qed.

(** C2 (amended): the ACPI strategy reads the raw integer as tenths of
    Kelvin and yields a value exactly when the integer is above zero and
    [c = raw/10 - 273.15] lies strictly between -50 and 150; the value is
    [c] rounded to one decimal.  Raw 3281 converts to 54.950000000000045
    and is returned as 55.0 (it is raw 3282 that converts to
    55.05000000000001 and is returned as 55.1); raw 0 and every negative
    raw are rejected and the strategy yields nothing. *)
Theorem acpi_conversion :
  (forall raw v,
      acpiConvert raw = Some v <->
      gt (parseInt raw) (of_Z 0) = true
      /\ gt (sub (div (parseInt raw) (of_Z 10)) n273_15) (of_Z (-50)) = true
      /\ lt (sub (div (parseInt raw) (of_Z 10)) n273_15) (of_Z 150) = true
      /\ v = parseFloat (toFixed1 (sub (div (parseInt raw) (of_Z 10)) n273_15)))
  /\ (forall env w o,
         child_process env (calls w) (powershell wmiScript) = Ok o ->
         fst (acpiProbe env w) = Ok (acpiConvert (trim o)))
  /\ acpiConvert "3281" = Some (of_Z 55)
  /\ acpiConvert "3282" = Some (of_decimal false 551 (-1))
  /\ (forall raw neg n,
         parse_int raw = Some (neg, n) -> n = 0%N \/ neg = true ->
         acpiConvert raw = None)
  /\ acpiConvert "0" = None
  /\ acpiConvert "-2731" = None.
Proof.
  split; [|split; [|split; [|split; [|split; [|split]]]]].
  3, 4, 6, 7: vm_compute; reflexivity.
  - intros raw v. unfold acpiConvert, plausible. split.
    + destruct (negb (is_empty raw)); [|discriminate].
      destruct (isNaN (parseInt raw)); cbn [negb andb]; [discriminate|].
      destruct (gt (parseInt raw) (of_Z 0)); [|discriminate].
      destruct (gt _ (of_Z (-50))); cbn [andb]; [|discriminate].
      destruct (lt _ (of_Z 150)); [|discriminate].
      intros H. inversion H. auto.
    + intros (Hpos & Hlo & Hhi & ->).
      assert (Hraw : is_empty raw = false).
      { destruct raw; [vm_compute in Hpos; discriminate | reflexivity]. }
      assert (Hnan : isNaN (parseInt raw) = false).
      { destruct (parseInt raw); try reflexivity. vm_compute in Hpos. discriminate. }
      rewrite Hraw, Hnan, Hpos, Hlo, Hhi. reflexivity.
  - intros env w o Ho. unfold acpiProbe. unfold_m. now rewrite Ho.
  - intros raw neg n Hparse Hsign. unfold acpiConvert.
    destruct (negb (is_empty raw)); [|reflexivity].
    unfold parseInt. rewrite Hparse, (not_above_zero neg n Hsign).
    now rewrite andb_false_r.
Qed.

(** The entries of the theorem above at the two readings of its example. *)
Lemma acpi_conversion_witness :
  acpiConvert "3282" = Some (parseFloat "55.1") /\ acpiConvert "-5" = None.
Proof.
  split.
  - apply (proj1 acpi_conversion "3282" (parseFloat "55.1")).
    repeat split; vm_compute; reflexivity.
  - apply (proj1 (proj2 (proj2 (proj2 (proj2 acpi_conversion)))) "-5" true 5%N).
    + vm_compute; reflexivity.
    + right; reflexivity.
Defined.

(** ** The exported snapshot *)

Lemma library_then_windows (env : Env) (w w1 : world) :
  String.eqb (platform env) "win32" = true ->
  libraryProbe env w = (Ok None, w1) ->
  getCpuTemperature env w
  = orElse (lhmProbe env) (orElse (ohmProbe env) (orElse (acpiProbe env) (zoneScan env))) w1.
Proof.
  intros Hwin Hlib. unfold getCpuTemperature, windowsChain. rewrite Hwin.
  rewrite (orElse_none _ _ _ _ Hlib), orElse_assoc.
  apply orElse_ext. intros w2. apply orElse_assoc.
Qed.

Lemma lhmProbe_walked (env : Env) (w : world) (path text : string) (j : json)
      (r : option number) :
  LHM_JSON_PATH env = Some path -> is_empty path = false ->
  existsSync env path = true -> readFileSync env path = Ok text ->
  JSON_parse env text = Ok j ->
  walk (stack_room env) j None = Ok r ->
  lhmProbe env w = (Ok r, w).
Proof.
  intros Hpath Hne Hex Hread Hparse Hwalk.
  unfold lhmProbe. rewrite Hpath, Hne, Hex. unfold_m.
  now rewrite Hread, Hparse, Hwalk.
Qed.

Lemma lhmProbe_thrown (env : Env) (w : world) (path text : string) (j : json)
      (e : error) :
  LHM_JSON_PATH env = Some path -> is_empty path = false ->
  existsSync env path = true -> readFileSync env path = Ok text ->
  JSON_parse env text = Ok j ->
  walk (stack_room env) j None = Throw e ->
  exists w', lhmProbe env w = (Ok None, w').
Proof.
  intros Hpath Hne Hex Hread Hparse Hwalk.
  unfold lhmProbe. rewrite Hpath, Hne, Hex. unfold_m.
  rewrite Hread, Hparse, Hwalk. eexists. reflexivity.
Qed.

Lemma node_of_nested (n : nat) (leaf : json) : node_of (nested n leaf) leaf.
Proof.
  induction n as [|n IH]; cbn [nested]; [constructor|].
  apply (node_below _ [nested n leaf] (nested n leaf) leaf);
    [reflexivity | now left | exact IH].
Qed.

(** C7, as stated, fails on two well-formed snapshots in which a node
    matches.  In the first the sensor CPU Package reads 50 and a later node
    has a label that is an object with a member toString: testing that label
    throws, the exception is caught with the selection made so far, and the
    strategy yields nothing.  In the second the sensor lies below 4000
    groups, on a stack with room for 4000 nested calls: the walk overflows
    the stack before it reaches the sensor, and the strategy yields nothing. *)
Lemma lhm_walk_interrupted :
  (exists n, node_of oddSnapshot n /\ reading n = Some (of_Z 50))
  /\ existsSync (windowsEnv (Some (Ok oddSnapshot)) (Throw "x") (Throw "y")) "C:\lhm.json" = true
  /\ JSON_parse (windowsEnv (Some (Ok oddSnapshot)) (Throw "x") (Throw "y")) "snapshot"
     = Ok oddSnapshot
  /\ walk 4000 oddSnapshot None = Throw notPrimitive
  /\ fst (lhmProbe (windowsEnv (Some (Ok oddSnapshot)) (Throw "x") (Throw "y")) world0)
     = Ok None
  /\ (exists n, node_of deepSnapshot n /\ reading n = Some (of_Z 50))
  /\ walk 4000 deepSnapshot None = Throw stackOverflow
  /\ fst (lhmProbe (windowsEnv (Some (Ok deepSnapshot)) (Throw "x") (Throw "y")) world0)
     = Ok None.
Proof.
  split; [|split; [|split; [|split; [|split; [|split; [|split]]]]]].
  - exists oddSnapshot. split; [constructor | vm_compute; reflexivity].
  - reflexivity.
  - reflexivity.
  - vm_compute; reflexivity.
  - vm_compute; reflexivity.
  - eexists. split; [apply node_of_nested | vm_compute; reflexivity].
  - vm_compute; reflexivity.
  - vm_compute; reflexivity.
Qed.

(** C7 (amended): when the file exists and parses, the strategy walks
    the tree of the snapshot through the Children arrays.  A walk that
    returns yields the maximum of the values of the nodes whose label
    matches, and nothing when no node matches; the walk returns when no
    label fails to convert to a string and the stack has room for the depth
    of the tree.  On a snapshot that does not parse, and on a walk that
    throws, the strategy yields nothing; when it yields nothing the resolver
    goes on with the next strategy. *)
Theorem lhm_snapshot_walk :
  (forall room j r,
      walk room j None = Ok r ->
      match r with
      | Some v => is_max_reading j v
      | None => forall n, node_of j n -> reading n = None
      end)
  /\ (forall room j,
         (depth j < room)%nat -> convertible j ->
         exists r, walk room j None = Ok r)
  /\ (forall env w path text j r,
         LHM_JSON_PATH env = Some path -> is_empty path = false ->
         existsSync env path = true -> readFileSync env path = Ok text ->
         JSON_parse env text = Ok j ->
         walk (stack_room env) j None = Ok r ->
         lhmProbe env w = (Ok r, w))
  /\ (forall env w path text j e,
         LHM_JSON_PATH env = Some path -> is_empty path = false ->
         existsSync env path = true -> readFileSync env path = Ok text ->
         JSON_parse env text = Ok j ->
         walk (stack_room env) j None = Throw e ->
         exists w', lhmProbe env w = (Ok None, w'))
  /\ (forall env w path text e,
         LHM_JSON_PATH env = Some path -> is_empty path = false ->
         existsSync env path = true -> readFileSync env path = Ok text ->
         JSON_parse env text = Throw e ->
         exists w', lhmProbe env w = (Ok None, w'))
  /\ (forall env w w1 w2 v,
         String.eqb (platform env) "win32" = true ->
         libraryProbe env w = (Ok None, w1) ->
         lhmProbe env w1 = (Ok (Some v), w2) ->
         getCpuTemperature env w = (Ok (Some v), w2))
  /\ (forall env w w1 w2,
         String.eqb (platform env) "win32" = true ->
         libraryProbe env w = (Ok None, w1) ->
         lhmProbe env w1 = (Ok None, w2) ->
         getCpuTemperature env w
         = orElse (ohmProbe env) (orElse (acpiProbe env) (zoneScan env)) w2).
Proof.
  split; [|split; [|split; [|split; [|split; [|split]]]]].
  - intros room j r. apply walk_max.
  - intros room j Hd Hconv. apply walk_completes.
    now apply completes_within_depth.
  - intros env w path text j r. apply lhmProbe_walked.
  - intros env w path text j e. apply lhmProbe_thrown.
  - intros env w path text e Hpath Hne Hex Hread Hparse.
    unfold lhmProbe. rewrite Hpath, Hne, Hex. unfold_m.
    rewrite Hread, Hparse. eexists. reflexivity.
  - intros env w w1 w2 v Hwin Hlib Hlhm.
    rewrite (library_then_windows env w w1 Hwin Hlib).
    now apply orElse_some.
  - intros env w w1 w2 Hwin Hlib Hlhm.
    rewrite (library_then_windows env w w1 Hwin Hlib).
    now apply orElse_none.
Qed.

(** The theorem at the sample snapshot: the resolver returns 61, the
    larger of the two matching sensors, and 61 is the maximum over the
    matching nodes. *)
Lemma lhm_snapshot_walk_witness :
  getCpuTemperature (windowsEnv (Some (Ok sampleSnapshot)) (Throw "x") (Throw "y")) world0
  = (Ok (Some (of_Z 61)), world0)
  /\ is_max_reading sampleSnapshot (of_Z 61).
Proof.
  split.
  - apply (proj1 (proj2 (proj2 (proj2 (proj2 (proj2 lhm_snapshot_walk)))))
             (windowsEnv (Some (Ok sampleSnapshot)) (Throw "x") (Throw "y"))
             world0 world0 world0 (of_Z 61)).
    + reflexivity.
    + reflexivity.
    + apply (proj1 (proj2 (proj2 lhm_snapshot_walk))
               _ world0 "C:\lhm.json" "snapshot" sampleSnapshot);
        [reflexivity | reflexivity | reflexivity | reflexivity | reflexivity
        | vm_compute; reflexivity].
  - apply (proj1 lhm_snapshot_walk 4000%nat sampleSnapshot (Some (of_Z 61))).
    vm_compute; reflexivity.
Defined.

(** ** The kernel thermal-zone tree *)

Lemma scanZone_readable (env : Env) (best : option number) (z : ThermalZoneSample) :
  zone_readable env z ->
  scanZone env best (zone z)
  = if zone_kept z then update_best best (zone_celsius z) else best.
Proof.
  intros (Htype & Htemp & Hrt & Hrv & Hnum). unfold scanZone.
  rewrite Htype, Htemp, Hrt, Hrv. cbn [negb orb].
  unfold zone_kept, zone_label, zone_celsius. unfold zone_milli in *.
  destruct (ci_test zone_labels (trim (type_text z))); [|reflexivity].
  now rewrite Hnum.
Qed.

Lemma scan_readable_zones (env : Env) (zs : list ThermalZoneSample) :
  Forall (zone_readable env) zs ->
  forall best,
    fold_left (scanZone env) (map zone zs) best
    = fold_left update_best (map zone_celsius (filter zone_kept zs)) best.
Proof.
  induction 1 as [|z zs Hz _ IH]; intros best; [reflexivity|].
  cbn [map fold_left filter]. rewrite (scanZone_readable env best z Hz), IH.
  destruct (zone_kept z); reflexivity.
Qed.

Lemma readable_zones_numbers (env : Env) (zs : list ThermalZoneSample) :
  Forall (zone_readable env) zs ->
  all_numbers (map zone_celsius (filter zone_kept zs)).
Proof.
  unfold all_numbers.
  induction 1 as [|z zs Hz _ IH]; cbn [filter map]; [constructor|].
  destruct (zone_kept z); [|exact IH].
  constructor; [|exact IH].
  destruct Hz as (_ & _ & _ & _ & Hnum). now apply celsius_number.
Qed.

Lemma exhausted_then_zones (env : Env) (w w1 : world) :
  orElse (libraryProbe env) (windowsChain env) w = (Ok None, w1) ->
  getCpuTemperature env w = zoneScan env w1.
Proof.
  intros H. unfold getCpuTemperature. rewrite <- orElse_assoc.
  now apply orElse_none.
Qed.

(** C4: once the earlier strategies are exhausted the resolver scans the
    kernel thermal-zone tree.  Among readable zones a zone is kept exactly
    when its label matches cpu|x86_pkg|soc without regard to case; a kept
    zone reads its milli-Celsius value divided by 1000; the resolver returns
    the maximum over the kept zones, and absent when no zone is kept or the
    tree is absent.  A zone typed x86_pkg_temp holding 45000 reads 45.0, the
    same value on a zone typed random-sensor is left out, and the three
    sample zones give 52.0. *)
Theorem thermal_zone_fallback :
  (forall env w w1,
      orElse (libraryProbe env) (windowsChain env) w = (Ok None, w1) ->
      existsSync env basePath = false ->
      getCpuTemperature env w = (Ok None, w1))
  /\ (forall env w w1 entries zs,
         orElse (libraryProbe env) (windowsChain env) w = (Ok None, w1) ->
         existsSync env basePath = true ->
         readdirSync env basePath = Ok entries ->
         filter (startsWith "thermal_zone") entries = map zone zs ->
         Forall (zone_readable env) zs ->
         getCpuTemperature env w
         = (Ok (best_of (map zone_celsius (filter zone_kept zs))), w1)
         /\ (filter zone_kept zs = [] ->
             best_of (map zone_celsius (filter zone_kept zs)) = None)
         /\ (filter zone_kept zs <> [] ->
             exists v,
               best_of (map zone_celsius (filter zone_kept zs)) = Some v
               /\ is_max_of (map zone_celsius (filter zone_kept zs)) v))
  /\ (zone_kept {| zone := "thermal_zone0"; type_text := "x86_pkg_temp"; temp_text := "45000" |} = true
      /\ zone_celsius {| zone := "thermal_zone0"; type_text := "x86_pkg_temp"; temp_text := "45000" |}
         = of_Z 45
      /\ zone_kept {| zone := "thermal_zone0"; type_text := "random-sensor"; temp_text := "45000" |} = false
      /\ getCpuTemperature
           (linuxEnv [ {| zone := "thermal_zone0"; type_text := "x86_pkg_temp"; temp_text := "45000" |} ])
           world0 = (Ok (Some (of_Z 45)), world0)
      /\ getCpuTemperature
           (linuxEnv [ {| zone := "thermal_zone0"; type_text := "random-sensor"; temp_text := "45000" |} ])
           world0 = (Ok None, world0)
      /\ getCpuTemperature (linuxEnv sampleZones) world0 = (Ok (Some (of_Z 52)), world0)).
Proof.
  split; [|split].
  - intros env w w1 Hprev Hex.
    rewrite (exhausted_then_zones env w w1 Hprev).
    unfold zoneScan. unfold_m. now rewrite Hex.
  - intros env w w1 entries zs Hprev Hex Hdir Hzones Hread.
    split.
    + rewrite (exhausted_then_zones env w w1 Hprev).
      unfold zoneScan. unfold_m. rewrite Hex, Hdir. cbn [negb].
      rewrite Hzones, (scan_readable_zones env zs Hread). reflexivity.
    + destruct (best_of_max _ (readable_zones_numbers env zs Hread)) as [Hnil Hmax].
      split.
      * intros E. apply Hnil. now rewrite E.
      * intros Hne. apply Hmax. intros E. apply Hne.
        now apply map_eq_nil in E.
  - repeat split; vm_compute; reflexivity.
Qed.

(** The theorem at the three sample zones: the resolver returns their
    best-of selection, which is a maximum of the two kept readings. *)
Lemma thermal_zone_fallback_witness :
  getCpuTemperature (linuxEnv sampleZones) world0
  = (Ok (best_of (map zone_celsius (filter zone_kept sampleZones))), world0)
  /\ exists v,
      best_of (map zone_celsius (filter zone_kept sampleZones)) = Some v
      /\ is_max_of (map zone_celsius (filter zone_kept sampleZones)) v.
Proof.
  destruct (proj1 (proj2 thermal_zone_fallback)
              (linuxEnv sampleZones) world0 world0
              ("cooling_device0" :: map zone sampleZones) sampleZones)
    as (Hrun & _ & Hmax).
  - reflexivity.
  - reflexivity.
  - reflexivity.
  - reflexivity.
  - repeat constructor.
  - split; [exact Hrun|]. apply Hmax. discriminate.
Defined.

(** ** The GPU temperature enumerator *)

Lemma resolveController_resolved (env : Env) (c : Si.controller) (w : world) :
  exists info w',
    resolveController env c w = (Ok info, w') /\ resolved env c w info w'.
Proof.
  unfold resolveController.
  fold (wantsVendorCli c).
  destruct (wantsVendorCli c) eqn:Hwant.
  - unfold nvidiaFallback. unfold_m. cbn [calls].
    destruct (child_process env (calls w) nvidiaSmi) as [o|e] eqn:Hcli.
    + destruct (isNaN (parseInt (split_first (trim o)))) eqn:Hnan; cbn [negb fst snd].
      * eexists _, _. split; [reflexivity|].
        apply resolved_cli_failed; auto.
        rewrite Hcli. unfold cliReading. now rewrite Hnan.
      * eexists _, _. split; [reflexivity|].
        apply (resolved_cli env c w (parseInt (split_first (trim o)))); auto.
        rewrite Hcli. unfold cliReading. now rewrite Hnan.
    + eexists _, _. split; [reflexivity|]. cbn [fst snd].
      apply resolved_cli_failed; auto.
      now rewrite Hcli.
  - unfold_m. eexists _, _. split; [reflexivity|].
    now apply resolved_library.
Qed.

Lemma pushAll_emitted (env : Env) (cs : list Si.controller) :
  forall result w, exists infos w',
    pushAll env cs result w = (Ok (result ++ infos)%list, w')
    /\ Forall2 (emitted env) cs infos.
Proof.
  induction cs as [|c cs IH]; intros result w; cbn [pushAll].
  - exists [], w. rewrite app_nil_r. split; [reflexivity | constructor].
  - destruct (resolveController_resolved env c w) as (info & w1 & Hrun & Hres).
    destruct (IH (result ++ [info])%list w1) as (infos & w2 & Hrest & Hall).
    exists (info :: infos), w2. split.
    + unfold bind. rewrite Hrun, Hrest. now rewrite <- app_assoc.
    + constructor; [now exists w, w1 | exact Hall].
Qed.

Lemma getGpuTemperatures_emitted (env : Env) (w : world) :
  exists res w',
    getGpuTemperatures env w = (Ok res, w')
    /\ match si_graphics env with
       | Ok cs => Forall2 (emitted env) cs res
       | Throw e =>
           res = []
           /\ logs w' = (logs w ++ [ {| lvl := Warn;
                                        msg := WithError "systeminformation graphics() failed" e |} ])%list
       end.
Proof.
  unfold getGpuTemperatures. unfold_m.
  destruct (si_graphics env) as [cs|e].
  - match goal with
    | |- context [pushAll env cs [] ?w0] =>
        destruct (pushAll_emitted env cs [] w0) as (infos & w' & Hrun & Hall)
    end.
    rewrite Hrun. exists infos, w'. auto.
  - eexists _, _. split; [reflexivity|]. auto.
Qed.






(** C10: the vendor CLI can change only the temperature and the source of
    the element emitted for a controller, and both together or neither: the
    element is either the one the library enumeration gives, or that one
    with the temperature overwritten by the CLI's integer and the source
    set to nvidia-smi; the model and the memory temperature are always the
    library's. *)
Theorem vendor_cli_frame (env : Env) (c : Si.controller) (w : world) :
  exists info w',
    resolveController env c w = (Ok info, w')
    /\ model info = or_string (Si.model c) (or_string (Si.vendor c) "Unknown GPU")
    /\ temperatureMemory info = numeric (Si.temperatureMemory c)
    /\ (info = libraryInfo c
        \/ exists t,
            cliReading (child_process env (calls w) nvidiaSmi) = Some t
            /\ temperatureGpu (libraryInfo c) = None
            /\ info = cliInfo c t)
    /\ (source info = "nvidia-smi" ->
        exists t,
          cliReading (child_process env (calls w) nvidiaSmi) = Some t
          /\ temperatureGpu info = Some t).
Proof.
  destruct (resolveController_resolved env c w) as (info & w' & Hrun & Hres).
  exists info, w'. split; [exact Hrun|].
  destruct Hres as [Hwant|t w' Hwant Hcli Hcalls Hlogs|w' Hwant Hcli Hcalls];
    repeat split; auto; try discriminate.
  - right. exists t. repeat split; auto.
    unfold wantsVendorCli in Hwant. apply andb_prop in Hwant as [Hn _].
    cbn [libraryInfo temperatureGpu]. now destruct (numeric (Si.temperatureGpu c)).
  - intros _. now exists t.
Qed.

(** C8: neither resolver raises.  The CPU resolver returns an optional
    number in every environment; the GPU enumerator returns one element per
    controller, in the order of the enumeration, and the empty sequence
    with one warning logged when the enumeration itself fails. *)
Theorem resolvers_never_raise (env : Env) (w : world) :
  (exists r w', getCpuTemperature env w = (Ok r, w'))
  /\ (exists res w',
         getGpuTemperatures env w = (Ok res, w')
         /\ match si_graphics env with
            | Ok cs =>
                List.length res = List.length cs
                /\ map model res = map (fun c => model (libraryInfo c)) cs
            | Throw e =>
                res = []
                /\ logs w' = (logs w ++ [ {| lvl := Warn;
                                             msg := WithError "systeminformation graphics() failed" e |} ])%list
            end).
Proof.
  split.
  - destruct (cpu_resolver_sound env w) as (r & w' & Hrun & _). eauto.
  - destruct (getGpuTemperatures_emitted env w) as (res & w' & Hrun & Hspec).
    exists res, w'. split; [exact Hrun|]. clear Hrun.
    destruct (si_graphics env) as [cs|e]; [|exact Hspec].
    induction Hspec as [|c info cs res (w1 & w2 & Hres) _ [IHlen IHmap]];
      [split; reflexivity|].
    cbn [List.length map]. rewrite IHlen, IHmap. split; [reflexivity|].
    f_equal. now destruct Hres.
Qed.

(** ** The poll supervisor *)

(** The guarded job of a tick returns, with the failure logged if there is one. *)
Lemma guarded_job (job : M unit) (w : world) :
  exists w2,
    try_catch job (fun err => logger Error (WithError "Job failed" err)) w = (Ok tt, w2)
    /\ match job w with
       | (Ok _, w1) => w2 = w1
       | (Throw e, w1) =>
           clock w2 = clock w1 /\ timers w2 = timers w1 /\ calls w2 = calls w1
           /\ logs w2 = (logs w1 ++ [ {| lvl := Error; msg := WithError "Job failed" e |} ])%list
       end.
Proof.
  unfold_m. destruct (job w) as [[[]|e] w1]; eexists; split; try reflexivity.
  cbn. auto.
Qed.

(** A tick is its guarded job followed by the drift-corrected sleep. *)
Lemma tick_run (job : M unit) (w w2 : world) :
  try_catch job (fun err => logger Error (WithError "Job failed" err)) w = (Ok tt, w2) ->
  tick job w
  = if intervalMs - (clock w2 - clock w) >? 0
    then sleep (intervalMs - (clock w2 - clock w)) w2
    else (Ok tt, w2).
Proof.
  intros H. unfold tick, bind, Date_now. rewrite H.
  destruct (intervalMs - (clock w2 - clock w) >? 0); reflexivity.
Qed.

Lemma tick_returns (job : M unit) (w : world) : exists w', tick job w = (Ok tt, w').
Proof.
  destruct (guarded_job job w) as (w2 & Hrun & _).
  rewrite (tick_run job w w2 Hrun).
  destruct (intervalMs - (clock w2 - clock w) >? 0); unfold sleep; eauto.
Qed.

Lemma loop_returns (jobs : list (M unit)) : forall w, exists w', loop jobs w = (Ok tt, w').
Proof.
  induction jobs as [|job jobs IH]; intros w; cbn [loop].
  - exists w. reflexivity.
  - destruct (tick_returns job w) as [w1 H1]. unfold bind. rewrite H1. apply IH.
Qed.

(** C9: after the job of a tick, failed or not, the supervisor sleeps for
    max(0, intervalMs - elapsed), where elapsed is the clock after
    resolution and logging minus the clock at the start of the tick; when
    elapsed is at least the interval no timer is set and no time passes. *)
Theorem drift_corrected_sleep (job : M unit) (w : world) :
  exists w2 w',
    try_catch job (fun err => logger Error (WithError "Job failed" err)) w = (Ok tt, w2)
    /\ tick job w = (Ok tt, w')
    /\ clock w' - clock w2 = Z.max 0 (intervalMs - (clock w2 - clock w))
    /\ timers w'
       = (timers w2
          ++ if intervalMs - (clock w2 - clock w) >? 0
             then [intervalMs - (clock w2 - clock w)] else [])%list
    /\ (intervalMs <= clock w2 - clock w -> w' = w2).
Proof.
  destruct (guarded_job job w) as (w2 & Hrun & _).
  exists w2. rewrite (tick_run job w w2 Hrun).
  destruct (Z.gtb_spec (intervalMs - (clock w2 - clock w)) 0) as [Hpos|Hneg].
  - eexists. split; [exact Hrun|]. split; [reflexivity|].
    cbn [clock timers]. repeat split; lia.
  - exists w2. split; [exact Hrun|]. split; [reflexivity|].
    rewrite app_nil_r. repeat split; lia.
Qed.

(** C3, as stated, fails for a slow tick: a job that throws 40000 ms after
    the tick started is logged and survived, but the next tick starts at
    once, 40000 ms after the start of the failed one and not 30000 ms. *)
Lemma slow_failing_tick :
  tick (failingJob 40000) world0
  = (Ok tt,
     {| clock := 40000; calls := 0;
        logs := [ {| lvl := Error; msg := WithError "Job failed" "boom" |} ];
        timers := [] |})
  /\ clock world0 + intervalMs = 30000.
Proof. split; vm_compute; reflexivity. Qed.

(** C3 (amended): an error escaping the job of a tick is caught at the
    tick boundary and logged at error severity, and the loop goes on: the
    tick returns, the next tick starts max(intervalMs, elapsed) after the
    start of the failed one, that is after exactly the fixed interval
    whenever the failed tick took no longer than the interval, and the
    process is still running after any number of ticks.  Only an error that
    escapes [main] itself ends the process, with status 1 and an error
    logged. *)
Theorem tick_failure_contained :
  (forall job w e w1,
      job w = (Throw e, w1) ->
      exists w',
        tick job w = (Ok tt, w')
        /\ logs w' = (logs w1 ++ [ {| lvl := Error; msg := WithError "Job failed" e |} ])%list
        /\ clock w' = clock w + Z.max intervalMs (clock w1 - clock w)
        /\ (clock w1 - clock w <= intervalMs -> clock w' = clock w + intervalMs))
  /\ (forall jobs w, exists w', loop jobs w = (Ok tt, w'))
  /\ (forall envs w, exists w', program envs w = Running w')
  /\ (forall body w e w1,
         body w = (Throw e, w1) ->
         exists w',
           catch_fatal body w = Exited 1 w'
           /\ logs w' = (logs w1 ++ [ {| lvl := Error; msg := WithError "Fatal" e |} ])%list).
Proof.
  split; [|split; [|split]].
  - intros job w e w1 Hjob.
    destruct (guarded_job job w) as (w2 & Hrun & Hspec).
    rewrite Hjob in Hspec. destruct Hspec as (Hclock & Htimers & Hcalls & Hlogs).
    rewrite (tick_run job w w2 Hrun), Hclock.
    destruct (Z.gtb_spec (intervalMs - (clock w1 - clock w)) 0) as [Hpos|Hneg].
    + eexists. split; [reflexivity|]. cbn [clock logs].
      rewrite Hclock, Hlogs. repeat split; lia.
    + exists w2. split; [reflexivity|]. rewrite Hclock, Hlogs. repeat split; lia.
  - intros jobs w. apply loop_returns.
  - intros envs w. unfold program, catch_fatal, main.
    destruct (loop_returns (map logSysTemperatures envs) w) as [w' ->]. eauto.
  - intros body w e w1 Hbody. unfold catch_fatal. rewrite Hbody.
    eexists. split; reflexivity.
Qed.

(** The theorem at a job that throws after 1200 ms: the failure is logged
    and the next tick starts 30000 ms after the start of the failed one. *)
Lemma tick_failure_contained_witness :
  exists w',
    tick (failingJob 1200) world0 = (Ok tt, w')
    /\ logs w' = [ {| lvl := Error; msg := WithError "Job failed" "boom" |} ]
    /\ clock w' = 30000.
Proof.
  destruct (proj1 tick_failure_contained (failingJob 1200) world0 "boom"
              {| clock := 1200; calls := 0; logs := []; timers := [] |})
    as (w' & Hrun & Hlogs & _ & Hclock).
  - reflexivity.
  - exists w'. split; [exact Hrun|]. split; [exact Hlogs|].
    apply Hclock. vm_compute. discriminate.
Defined.

(** ** What the resolvers leave behind *)

Lemma probed_refl (w : world) : probed w w.
Proof.
  repeat split; auto. exists []. now rewrite app_nil_r.
Qed.

Lemma probed_trans (w1 w2 w3 : world) : probed w1 w2 -> probed w2 w3 -> probed w1 w3.
Proof.
  intros (Ht1 & Hc1 & l1 & Hl1 & Hd1) (Ht2 & Hc2 & l2 & Hl2 & Hd2).
  repeat split; [congruence | lia |].
  exists (l1 ++ l2)%list. split.
  - now rewrite Hl2, Hl1, app_assoc.
  - rewrite forallb_app, Hd1, Hd2. reflexivity.
Qed.

(** One diagnostic entry appended, nothing else touched. *)
Lemma probed_log (w : world) (l : level) (m : message) :
  diagnostic {| lvl := l; msg := m |} = true ->
  probed w (snd (logger l m w)).
Proof.
  intros H. repeat split; auto. cbn [logger snd logs].
  eexists [_]. split; [reflexivity|]. cbn [forallb]. now rewrite H.
Qed.

Lemma probed_call (w : world) :
  probed w {| clock := clock w; calls := S (calls w); logs := logs w; timers := timers w |}.
Proof.
  repeat split; cbn; auto. exists []. now rewrite app_nil_r.
Qed.

Lemma probed_elapse (w : world) (ms : Z) : probed w (snd (elapse ms w)).
Proof.
  repeat split; cbn; auto. exists []. now rewrite app_nil_r.
Qed.

Lemma runs_ret {A} (a : A) : runs (ret a) 0 0.
Proof.
  intros w. cbn [ret snd]. split; [apply probed_refl | split; lia].
Qed.

Lemma runs_more {A} (m : M A) (ms : Z) (k k' : nat) :
  (k <= k')%nat -> runs m ms k -> runs m ms k'.
Proof.
  intros Hk H w. destruct (H w) as (Hp & Hc & Hn).
  split; [exact Hp | split; [exact Hc | lia]].
Qed.

Lemma runs_orElse {A} (a b : M (option A)) (ms : Z) (k1 k2 : nat) :
  runs a ms k1 -> runs b 0 k2 -> runs (orElse a b) ms (k1 + k2).
Proof.
  intros Ha Hb w. unfold orElse, bind, ret.
  destruct (Ha w) as (Hp & Hc & Hn).
  destruct (a w) as [[[v|]|e] w1]; cbn [snd] in *;
    try (split; [exact Hp | split; lia]).
  destruct (Hb w1) as (Hp' & Hc' & Hn').
  split; [eapply probed_trans; eauto | split; lia].
Qed.

Ltac step_probed :=
  cbn [snd fst];
  split;
  [ first [ apply probed_refl
          | apply probed_call
          | apply probed_elapse
          | apply probed_log; reflexivity
          | eapply probed_trans; [apply probed_call | apply probed_log; reflexivity]
          | eapply probed_trans; [apply probed_elapse | apply probed_log; reflexivity] ]
  | cbn [clock calls logs timers logger elapse snd]; split; lia ].

Lemma libraryProbe_runs (env : Env) : runs (libraryProbe env) (cpu_ms env) 0.
Proof.
  intros w. unfold libraryProbe. unfold_m.
  destruct (si_cpuTemperature env) as [[main|]|e]; [destruct (negb (isNaN main))| |];
    step_probed.
Qed.

Lemma lhmProbe_runs (env : Env) : runs (lhmProbe env) 0 0.
Proof.
  intros w. unfold lhmProbe.
  destruct (LHM_JSON_PATH env) as [path|]; [|apply runs_ret].
  destruct (negb (is_empty path) && existsSync env path)%bool; [|apply runs_ret].
  unfold_m.
  destruct (readFileSync env path) as [text|e]; [|step_probed].
  destruct (JSON_parse env text) as [j|e]; [|step_probed].
  destruct (walk (stack_room env) j None) as [r|e]; step_probed.
Qed.

Lemma ohmProbe_runs (env : Env) : runs (ohmProbe env) 0 1.
Proof.
  intros w. unfold ohmProbe. unfold_m.
  destruct (child_process env (calls w) (powershell psScript)) as [o|e]; [|step_probed].
  destruct (negb (is_empty (trim o))); [|step_probed].
  destruct (negb (isNaN (parseFloat (trim o)))); step_probed.
Qed.

Lemma acpiProbe_runs (env : Env) : runs (acpiProbe env) 0 1.
Proof.
  intros w. unfold acpiProbe. unfold_m.
  destruct (child_process env (calls w) (powershell wmiScript)) as [o|e]; step_probed.
Qed.

Lemma zoneScan_runs (env : Env) : runs (zoneScan env) 0 0.
Proof.
  intros w. unfold zoneScan. unfold_m.
  destruct (negb (existsSync env basePath)); [step_probed|].
  destruct (readdirSync env basePath) as [entries|e]; step_probed.
Qed.

Lemma windowsChain_runs (env : Env) : runs (windowsChain env) 0 2.
Proof.
  unfold windowsChain. destruct (String.eqb (platform env) "win32").
  - apply (runs_orElse _ _ 0 0 2); [apply lhmProbe_runs|].
    apply (runs_orElse _ _ 0 1 1); [apply ohmProbe_runs | apply acpiProbe_runs].
  - apply (runs_more _ 0 0 2); [lia | apply runs_ret].
Qed.

Lemma getCpuTemperature_runs (env : Env) : runs (getCpuTemperature env) (cpu_ms env) 2.
Proof.
  unfold getCpuTemperature.
  apply (runs_orElse _ _ _ 0 2); [apply libraryProbe_runs|].
  apply (runs_orElse _ _ 0 2 0); [apply windowsChain_runs | apply zoneScan_runs].
Qed.

(** ** Footprint and priorities of the CPU resolver *)

Lemma off_windows_runs (env : Env) :
  String.eqb (platform env) "win32" = false ->
  runs (getCpuTemperature env) (cpu_ms env) 0.
Proof.
  intros Hp. unfold getCpuTemperature, windowsChain. rewrite Hp.
  apply (runs_orElse _ _ _ 0 0); [apply libraryProbe_runs|].
  apply (runs_orElse _ _ 0 0 0); [apply runs_ret | apply zoneScan_runs].
Qed.

(** X1: whatever the environment, the CPU resolver sets no timer, only
    appends to the log, and only entries at warn or debug level; the time
    that passes is the time of the library call; it starts at most two
    subprocesses, and none at all unless the platform is win32. *)
Theorem cpu_resolver_footprint (env : Env) (w : world) :
  timers (snd (getCpuTemperature env w)) = timers w
  /\ (exists l, logs (snd (getCpuTemperature env w)) = (logs w ++ l)%list
                /\ forallb diagnostic l = true)
  /\ clock (snd (getCpuTemperature env w)) = clock w + cpu_ms env
  /\ (calls w <= calls (snd (getCpuTemperature env w)) <= calls w + 2)%nat
  /\ (String.eqb (platform env) "win32" = false ->
      calls (snd (getCpuTemperature env w)) = calls w).
Proof.
  destruct (getCpuTemperature_runs env w) as ((Ht & Hc & Hl) & Hclock & Hcalls).
  repeat split; auto.
  intros Hp. destruct (off_windows_runs env Hp w) as ((_ & Hc' & _) & _ & Hn). lia.
Qed.

Lemma cpu_resolver_footprint_witness :
  calls (snd (getCpuTemperature (linuxEnv sampleZones) world0)) = calls world0.
Proof.
  apply (proj2 (proj2 (proj2 (proj2
           (cpu_resolver_footprint (linuxEnv sampleZones) world0))))).
  reflexivity.
Defined.

(** X2: the library has priority and its failures are survived.  When it
    reports a number other than NaN the resolver returns that number,
    whatever the rest of the environment holds, and leaves the world as the
    library call left it: no subprocess is started and nothing is logged.
    When it reports NaN or no number the resolver silently goes on with the
    rest of the chain; when it throws, one warning is logged first. *)
Theorem library_priority :
  (forall env w v,
      si_cpuTemperature env = Ok (Some v) -> isNaN v = false ->
      getCpuTemperature env w = (Ok (Some v), snd (elapse (cpu_ms env) w)))
  /\ (forall env w main,
         si_cpuTemperature env = Ok main ->
         (main = None \/ main = Some NaN) ->
         getCpuTemperature env w
         = orElse (windowsChain env) (zoneScan env) (snd (elapse (cpu_ms env) w)))
  /\ (forall env w e,
         si_cpuTemperature env = Throw e ->
         getCpuTemperature env w
         = orElse (windowsChain env) (zoneScan env)
             (snd (logger Warn
                     (WithError "systeminformation cpuTemperature() failed, attempting fallback" e)
                     (snd (elapse (cpu_ms env) w))))).
Proof.
  split; [|split].
  - intros env w v Hlib Hv. unfold getCpuTemperature. apply orElse_some.
    unfold libraryProbe. unfold_m. rewrite Hlib, Hv. reflexivity.
  - intros env w main Hlib Hmain. unfold getCpuTemperature.
    apply orElse_none. unfold libraryProbe. unfold_m. rewrite Hlib.
    destruct Hmain as [-> | ->]; reflexivity.
  - intros env w e Hlib. unfold getCpuTemperature.
    apply orElse_none. unfold libraryProbe. unfold_m. rewrite Hlib. reflexivity.
Qed.

(** The library's 20 degrees win over the 52 degrees of the hottest zone. *)
Lemma library_priority_witness :
  getCpuTemperature
    {| si_cpuTemperature := Ok (Some (of_Z 20)); cpu_ms := 7;
       si_graphics := si_graphics (linuxEnv sampleZones); gpu_ms := 0;
       platform := "linux"; LHM_JSON_PATH := None;
       existsSync := existsSync (linuxEnv sampleZones);
       readFileSync := readFileSync (linuxEnv sampleZones);
       readdirSync := readdirSync (linuxEnv sampleZones);
       JSON_parse := JSON_parse (linuxEnv sampleZones);
       stack_room := stack_room (linuxEnv sampleZones);
       child_process := child_process (linuxEnv sampleZones) |}
    world0
  = (Ok (Some (of_Z 20)), {| clock := 7; calls := 0; logs := []; timers := [] |}).
Proof.
  apply (proj1 library_priority); reflexivity.
Defined.

(** ** The management-interface strategy *)

Lemma parseFloat_empty_nan (s : string) :
  isNaN (parseFloat s) = false -> is_empty s = false.
Proof. destruct s; [vm_compute; discriminate | reflexivity]. Qed.

Lemma ohm_calls (env : Env) (w : world) :
  calls (snd (ohmProbe env w)) = S (calls w)
  /\ calls (snd (acpiProbe env w)) = S (calls w).
Proof.
  split.
  - unfold ohmProbe. unfold_m.
    destruct (child_process env (calls w) (powershell psScript)) as [o|e]; [|reflexivity].
    destruct (negb (is_empty (trim o))); [|reflexivity].
    destruct (negb (isNaN (parseFloat (trim o)))); reflexivity.
  - unfold acpiProbe. unfold_m.
    destruct (child_process env (calls w) (powershell wmiScript)) as [o|e]; reflexivity.
Qed.

(** X3: the management-interface strategy starts exactly one subprocess.
    It yields a value exactly when the query returns and its trimmed output
    parses as a float, and the value is that float (empty or unparsable
    output yields nothing, silently); when the query throws it yields
    nothing and logs one debug entry. *)
Theorem ohm_strategy (env : Env) (w : world) :
  calls (snd (ohmProbe env w)) = S (calls w)
  /\ (forall v,
         fst (ohmProbe env w) = Ok (Some v) <->
         exists o,
           child_process env (calls w) (powershell psScript) = Ok o
           /\ parseFloat (trim o) = v /\ isNaN v = false)
  /\ (forall o,
         child_process env (calls w) (powershell psScript) = Ok o ->
         logs (snd (ohmProbe env w)) = logs w)
  /\ (forall e,
         child_process env (calls w) (powershell psScript) = Throw e ->
         fst (ohmProbe env w) = Ok None
         /\ logs (snd (ohmProbe env w))
            = (logs w ++ [ {| lvl := Debug;
                              msg := WithError "OpenHardwareMonitor WMI query failed (likely not running)" e |} ])%list).
Proof.
  unfold ohmProbe. unfold_m.
  destruct (child_process env (calls w) (powershell psScript)) as [o|e] eqn:Hcli.
  - destruct (isNaN (parseFloat (trim o))) eqn:Hnan.
    + assert (Hnone : fst (if negb (is_empty (trim o))
                           then (Ok (@None number),
                                 {| clock := clock w; calls := S (calls w);
                                    logs := logs w; timers := timers w |})
                           else (Ok None,
                                 {| clock := clock w; calls := S (calls w);
                                    logs := logs w; timers := timers w |}))
                      = Ok None) by (destruct (negb (is_empty (trim o))); reflexivity).
      cbn [negb].
      destruct (negb (is_empty (trim o))); cbn [fst snd calls logs];
        (split; [reflexivity|]); (split; [|split; [reflexivity | discriminate]]);
        intros v; (split; [discriminate|]);
        intros (o' & Ho & Hv & Hv'); inversion Ho; subst; congruence.
    + rewrite (parseFloat_empty_nan _ Hnan). cbn [negb fst snd calls logs].
      split; [reflexivity|]. split; [|split; [reflexivity | discriminate]].
      intros v. split.
      * intros H. inversion H; subst. exists o. auto.
      * intros (o' & Ho & Hv & _). inversion Ho; subst. reflexivity.
  - cbn [fst snd calls logs]. split; [reflexivity|].
    split; [|split; [discriminate|]].
    + intros v. split; [discriminate|]. intros (o & Ho & _). discriminate.
    + intros e' He. inversion He; subst. auto.
Qed.

(** The strategy at a query that prints 61.5. *)
Lemma ohm_strategy_witness :
  fst (ohmProbe (windowsEnv None (Ok (" 61.5" ++ nl)) (Throw "no ACPI")) world0)
  = Ok (Some (of_decimal false 615 (-1))).
Proof.
  apply (proj1 (proj2 (ohm_strategy
                         (windowsEnv None (Ok (" 61.5" ++ nl)) (Throw "no ACPI")) world0))).
  exists (" 61.5" ++ nl). repeat split; vm_compute; reflexivity.
Defined.

(** ** The zone scan: skipping, order and growth *)

Lemma scanZone_factor (env : Env) (best : option number) (z : string) :
  scanZone env best z
  = match scanZone env None z with
    | Some c => update_best best c
    | None => best
    end.
Proof.
  unfold scanZone.
  destruct (negb (existsSync env _) || negb (existsSync env _))%bool; [reflexivity|].
  destruct (readFileSync env _) as [t|e]; [|reflexivity].
  destruct (ci_test zone_labels (trim t)); [|reflexivity].
  destruct (readFileSync env _) as [r|e]; [|reflexivity].
  destruct (negb (isNaN (parseInt (trim r)))); reflexivity.
Qed.

Lemma scan_readings (env : Env) (names : list string) :
  forall best,
    fold_left (scanZone env) names best
    = fold_left update_best (zone_readings env names) best.
Proof.
  induction names as [|z names IH]; intros best; [reflexivity|].
  cbn [fold_left zone_readings flat_map]. rewrite fold_left_app.
  rewrite scanZone_factor, IH. unfold zone_reading.
  destruct (scanZone env None z); reflexivity.
Qed.

Lemma zone_readings_numbers (env : Env) (names : list string) :
  all_numbers (zone_readings env names).
Proof.
  unfold all_numbers, zone_readings.
  induction names as [|z names IH]; cbn [flat_map]; [constructor|].
  apply Forall_app. split; [|exact IH].
  unfold zone_reading. destruct (scanZone env None z) as [c|] eqn:E; constructor;
    [|constructor].
  apply (scanZone_number env None z); [discriminate | exact E].
Qed.

Lemma all_numbers_perm (l l' : list number) :
  Permutation l l' -> all_numbers l -> all_numbers l'.
Proof.
  unfold all_numbers. intros Hp H. rewrite Forall_forall in *.
  intros c Hc. apply H. apply (Permutation_in c (Permutation_sym Hp) Hc).
Qed.

(** Best-of-N selection does not depend on the order of the readings. *)
Lemma best_of_perm (l l' : list number) :
  Permutation l l' -> all_numbers l -> same_reading (best_of l) (best_of l').
Proof.
  intros Hp Hl. pose proof (all_numbers_perm l l' Hp Hl) as Hl'.
  destruct (best_of_max l Hl) as [Hnil Hmax].
  destruct (best_of_max l' Hl') as [Hnil' Hmax'].
  destruct l as [|c l].
  - apply Permutation_nil in Hp. subst l'. now rewrite Hnil.
  - destruct l' as [|c' l'];
      [apply Permutation_sym, Permutation_nil in Hp; discriminate|].
    destruct (Hmax ltac:(discriminate)) as (v & -> & Hin & Hup).
    destruct (Hmax' ltac:(discriminate)) as (v' & -> & Hin' & Hup').
    split.
    + apply Hup'. apply (Permutation_in v Hp Hin).
    + apply Hup. apply (Permutation_in v' (Permutation_sym Hp) Hin').
Qed.

(** X4: the reading of the zone scan does not depend on the order in which
    the directory lists the zones: for two listings that are permutations
    of each other the scan selects nothing in both, or two numerically
    equal readings. *)
Theorem zone_scan_order (env : Env) (names names' : list string) :
  Permutation names names' ->
  same_reading (fold_left (scanZone env) names None)
               (fold_left (scanZone env) names' None).
Proof.
  intros Hp. rewrite !scan_readings.
  apply best_of_perm; [|apply zone_readings_numbers].
  unfold zone_readings. now apply Permutation_flat_map.
Qed.

Lemma zone_scan_order_witness :
  same_reading
    (fold_left (scanZone (linuxEnv sampleZones))
       ["thermal_zone0"; "thermal_zone1"; "thermal_zone2"] None)
    (fold_left (scanZone (linuxEnv sampleZones))
       ["thermal_zone2"; "thermal_zone0"; "thermal_zone1"] None).
Proof.
  apply zone_scan_order.
  apply Permutation_sym, (Permutation_cons_app ["thermal_zone0"; "thermal_zone1"] []).
  apply Permutation_refl.
Defined.

(** X5: a zone that contributes nothing (a file is missing or unreadable,
    the label does not match, the value is not an integer) is skipped
    without any effect on the other zones, and a reading once selected is
    never lost or lowered by the zones that follow. *)
Theorem zone_scan_skips_and_grows (env : Env) :
  (forall z best,
      existsSync env (basePath ++ "/" ++ z ++ "/type") = false
      \/ existsSync env (basePath ++ "/" ++ z ++ "/temp") = false
      \/ (exists e, readFileSync env (basePath ++ "/" ++ z ++ "/type") = Throw e)
      \/ (exists t, readFileSync env (basePath ++ "/" ++ z ++ "/type") = Ok t
                    /\ ci_test zone_labels (trim t) = false)
      \/ (exists e, readFileSync env (basePath ++ "/" ++ z ++ "/temp") = Throw e)
      \/ (exists r, readFileSync env (basePath ++ "/" ++ z ++ "/temp") = Ok r
                    /\ isNaN (parseInt (trim r)) = true) ->
      scanZone env best z = best)
  /\ (forall before z after best,
         scanZone env None z = None ->
         fold_left (scanZone env) (before ++ z :: after) best
         = fold_left (scanZone env) (before ++ after) best)
  /\ (forall names more v,
         fold_left (scanZone env) names None = Some v ->
         exists v',
           fold_left (scanZone env) (names ++ more) None = Some v'
           /\ le v v' = true).
Proof.
  split; [|split].
  - intros z best H. unfold scanZone.
    destruct H as [H|[H|[(e & H)|[(t & H & Hl)|[(e & H)|(r & H & Hn)]]]]].
    + now rewrite H.
    + rewrite H. cbn [negb]. now rewrite orb_true_r.
    + destruct (negb _ || negb _)%bool; [reflexivity|]. now rewrite H.
    + destruct (negb _ || negb _)%bool; [reflexivity|]. now rewrite H, Hl.
    + destruct (negb _ || negb _)%bool; [reflexivity|].
      destruct (readFileSync env (basePath ++ "/" ++ z ++ "/type")) as [t|]; [|reflexivity].
      destruct (ci_test zone_labels (trim t)); [|reflexivity]. now rewrite H.
    + destruct (negb _ || negb _)%bool; [reflexivity|].
      destruct (readFileSync env (basePath ++ "/" ++ z ++ "/type")) as [t|]; [|reflexivity].
      destruct (ci_test zone_labels (trim t)); [|reflexivity]. now rewrite H, Hn.
  - intros before z after best Hz.
    rewrite !fold_left_app. cbn [fold_left].
    now rewrite (scanZone_factor env _ z), Hz.
  - intros names more v Hv.
    rewrite fold_left_app, Hv, scan_readings.
    destruct (fold_best_some (zone_readings env more) v) as [v' Hv'].
    exists v'. split; [exact Hv'|].
    assert (Hnum : isNaN v = false).
    { rewrite scan_readings in Hv.
      destruct (fold_best_member _ _ _ Hv) as [?|Hin]; [discriminate|].
      pose proof (zone_readings_numbers env names) as Hall.
      unfold all_numbers in Hall. rewrite Forall_forall in Hall. now apply Hall. }
    assert (Hb : forall b0, Some v = Some b0 -> isNaN b0 = false).
    { intros b0 E. inversion E; subst. exact Hnum. }
    destruct (fold_best_upper _ (Some v) v' (zone_readings_numbers env more) Hb Hv')
      as [Hbest _].
    now apply Hbest.
Qed.

Lemma zone_scan_skips_and_grows_witness :
  fold_left (scanZone (linuxEnv sampleZones))
    (["thermal_zone1"] ++ "thermal_zone0" :: ["thermal_zone2"]) None
  = fold_left (scanZone (linuxEnv sampleZones))
      (["thermal_zone1"] ++ ["thermal_zone2"]) None.
Proof.
  apply (proj1 (proj2 (zone_scan_skips_and_grows (linuxEnv sampleZones)))).
  vm_compute. reflexivity.
Defined.

(** X6: the edge cases of the zone tree.  When the tree is absent, or
    holds no entry whose name starts with thermal_zone, the scan yields
    nothing and logs nothing; when listing the tree throws, the scan still
    returns, yields nothing and logs exactly one warning. *)
Theorem zone_tree_edges (env : Env) (w : world) :
  (existsSync env basePath = false -> zoneScan env w = (Ok None, w))
  /\ (forall entries,
         existsSync env basePath = true ->
         readdirSync env basePath = Ok entries ->
         filter (startsWith "thermal_zone") entries = [] ->
         zoneScan env w = (Ok None, w))
  /\ (forall e,
         existsSync env basePath = true ->
         readdirSync env basePath = Throw e ->
         zoneScan env w
         = (Ok None,
            {| clock := clock w; calls := calls w;
               logs := logs w ++ [ {| lvl := Warn;
                                      msg := WithError "CPU thermal zone fallback failed" e |} ];
               timers := timers w |})).
Proof.
  unfold zoneScan. unfold_m. split; [|split].
  - intros ->. reflexivity.
  - intros entries -> -> ->. reflexivity.
  - intros e -> ->. reflexivity.
Qed.

Lemma zone_tree_edges_witness :
  zoneScan (linuxEnv []) world0 = (Ok None, world0).
Proof.
  apply (proj1 (proj2 (zone_tree_edges (linuxEnv []) world0)) ["cooling_device0"]);
    reflexivity.
Defined.

(** ** The vendor CLI's output *)

Lemma ws_not_digit (c : ascii) : is_ws c = true -> digit_of c = None.
Proof.
  destruct c as [[] [] [] [] [] [] [] []]; vm_compute; try discriminate; auto.
Qed.

Lemma nl_is_ws (c : ascii) : is_nl c = true -> is_ws c = true.
Proof.
  destruct c as [[] [] [] [] [] [] [] []]; vm_compute; try discriminate; auto.
Qed.

Lemma read_sign_cases (c : ascii) :
  (forall r, read_sign (String c r) = (true, r))
  \/ (forall r, read_sign (String c r) = (false, r))
  \/ (forall r, read_sign (String c r) = (false, String c r)).
Proof.
  destruct c as [[] [] [] [] [] [] [] []]; cbn; auto.
Qed.

Lemma ws_reaches_nl_head (c : ascii) (r : string) :
  ws_reaches_nl (String c r) = true -> is_ws c = true.
Proof.
  cbn [ws_reaches_nl]. destruct (is_nl c) eqn:E; [intros _; now apply nl_is_ws|].
  now destruct (is_ws c).
Qed.

(** The digits read at the head of a string are those of its first line. *)
Lemma span_first_line (s : string) :
  forall acc cnt,
    fst (span_digits (split_first s) acc cnt) = fst (span_digits s acc cnt).
Proof.
  induction s as [|c r IH]; intros acc cnt; [reflexivity|].
  cbn [split_first]. destruct (ws_reaches_nl (String c r)) eqn:E.
  - apply ws_reaches_nl_head, ws_not_digit in E.
    cbn [span_digits]. now rewrite E.
  - cbn [span_digits]. destruct (digit_of c); [apply IH | reflexivity].
Qed.

Lemma trimStart_head (s : string) :
  trimStart s = EmptyString \/ exists c r, trimStart s = String c r /\ is_ws c = false.
Proof.
  induction s as [|c r IH]; [now left|].
  cbn [trimStart]. destruct (is_ws c) eqn:E; [exact IH|].
  right. now exists c, r.
Qed.

Lemma trim_head (s : string) :
  trim s = EmptyString \/ exists c r, trim s = String c r /\ is_ws c = false.
Proof.
  unfold trim. destruct (trimStart_head s) as [->|(c & r & -> & Hc)]; [now left|].
  right. exists c, (trimEnd r). cbn [trimEnd]. now rewrite Hc.
Qed.

Lemma parse_int_first_line (c : ascii) (r : string) :
  is_ws c = false ->
  parse_int (split_first (String c r)) = parse_int (String c r).
Proof.
  intros Hc.
  assert (Hsplit : split_first (String c r) = String c (split_first r)).
  { cbn [split_first]. destruct (ws_reaches_nl (String c r)) eqn:E; [|reflexivity].
    apply ws_reaches_nl_head in E. congruence. }
  rewrite Hsplit. unfold parse_int. cbn [trimStart]. rewrite Hc.
  destruct (read_sign_cases c) as [H|[H|H]]; rewrite !H.
  - pose proof (span_first_line r 0%N 0%nat) as E.
    destruct (span_digits (split_first r) 0 0) as [[v k] s1].
    destruct (span_digits r 0 0) as [[v' k'] s1']. cbn [fst] in E.
    now inversion E.
  - pose proof (span_first_line r 0%N 0%nat) as E.
    destruct (span_digits (split_first r) 0 0) as [[v k] s1].
    destruct (span_digits r 0 0) as [[v' k'] s1']. cbn [fst] in E.
    now inversion E.
  - rewrite <- Hsplit.
    pose proof (span_first_line (String c r) 0%N 0%nat) as E.
    destruct (span_digits (split_first (String c r)) 0 0) as [[v k] s1].
    destruct (span_digits (String c r) 0 0) as [[v' k'] s1']. cbn [fst] in E.
    now inversion E.
Qed.

(** X7: cutting the vendor CLI's trimmed output at its first line changes
    nothing for the integer that is parsed: the reading is the integer at
    the head of the trimmed output, whatever follows it, lines included. *)
Theorem first_line_is_immaterial (o : string) :
  parseInt (split_first (trim o)) = parseInt (trim o)
  /\ cliReading (Ok o)
     = if isNaN (parseInt (trim o)) then None else Some (parseInt (trim o)).
Proof.
  assert (H : parseInt (split_first (trim o)) = parseInt (trim o)).
  { destruct (trim_head o) as [->|(c & r & -> & Hc)]; [reflexivity|].
    unfold parseInt. now rewrite parse_int_first_line. }
  split; [exact H|]. unfold cliReading. now rewrite H.
Qed.

(** ** Footprint of the GPU enumerator *)

Lemma resolveController_footprint (env : Env) (c : Si.controller) (w : world) :
  (exists info, fst (resolveController env c w) = Ok info)
  /\ probed w (snd (resolveController env c w))
  /\ clock (snd (resolveController env c w)) = clock w
  /\ calls (snd (resolveController env c w))
     = (calls w + if wantsVendorCli c then 1 else 0)%nat.
Proof.
  unfold resolveController. fold (wantsVendorCli c).
  destruct (wantsVendorCli c).
  - unfold nvidiaFallback. unfold_m.
    destruct (child_process env (calls w) nvidiaSmi) as [o|e].
    + destruct (negb (isNaN (parseInt (split_first (trim o)))));
        cbn [fst snd clock calls]; (split; [eauto|]);
        (split; [apply probed_call | split; [reflexivity | lia]]).
    + cbn [fst snd clock calls logs timers]. split; [eauto|].
      split; [|split; [reflexivity | lia]].
      apply (probed_trans w
               {| clock := clock w; calls := S (calls w);
                  logs := logs w; timers := timers w |});
        [apply probed_call
        | apply (probed_log
                   {| clock := clock w; calls := S (calls w);
                      logs := logs w; timers := timers w |}
                   Debug (WithError "nvidia-smi fallback failed" e)); reflexivity].
  - unfold_m. cbn [fst snd]. split; [eauto|].
    split; [apply probed_refl | split; [reflexivity | lia]].
Qed.

Lemma pushAll_footprint (env : Env) (cs : list Si.controller) :
  forall result w,
    probed w (snd (pushAll env cs result w))
    /\ clock (snd (pushAll env cs result w)) = clock w
    /\ calls (snd (pushAll env cs result w)) = (calls w + cliCalls cs)%nat.
Proof.
  induction cs as [|c cs IH]; intros result w; cbn [pushAll].
  - cbn. split; [apply probed_refl | split; [reflexivity | lia]].
  - destruct (resolveController_footprint env c w) as ((info & Hinfo) & Hp & Hc & Hn).
    unfold bind. destruct (resolveController env c w) as [r w1].
    cbn [fst snd] in *. subst r.
    destruct (IH (result ++ [info])%list w1) as (Hp' & Hc' & Hn').
    split; [eapply probed_trans; eauto|]. split; [congruence|].
    rewrite Hn', Hn. unfold cliCalls. cbn [filter].
    destruct (wantsVendorCli c); cbn [List.length]; lia.
Qed.

Lemma getGpuTemperatures_footprint (env : Env) (w : world) :
  timers (snd (getGpuTemperatures env w)) = timers w
  /\ (exists l, logs (snd (getGpuTemperatures env w)) = (logs w ++ l)%list
                /\ forallb diagnostic l = true)
  /\ clock (snd (getGpuTemperatures env w)) = clock w + gpu_ms env
  /\ calls (snd (getGpuTemperatures env w))
     = match si_graphics env with
       | Ok cs => (calls w + cliCalls cs)%nat
       | Throw _ => calls w
       end.
Proof.
  unfold getGpuTemperatures. unfold_m.
  destruct (si_graphics env) as [cs|e].
  - match goal with
    | |- context [pushAll env cs [] ?w0] =>
        destruct (pushAll_footprint env cs [] w0) as ((Ht & _ & l & Hl & Hd) & Hc & Hn);
        destruct (pushAll env cs [] w0) as [[res|e] w']
    end; cbn [fst snd clock calls logs timers] in *.
    + repeat split; auto. now exists l.
    + repeat split; auto.
      exists (l ++ [ {| lvl := Warn;
                        msg := WithError "systeminformation graphics() failed" e |} ])%list.
      split; [now rewrite Hl, app_assoc|].
      rewrite forallb_app, Hd. reflexivity.
  - cbn [snd clock calls logs timers]. repeat split; auto.
    eexists [_]. split; reflexivity.
Qed.

(** X8: the GPU enumerator sets no timer and only appends warn or debug
    entries to the log; the time that passes is the time of the library
    call; and it starts one subprocess for each controller that lacks a
    temperature and names NVIDIA, no more and no less (none when the
    enumeration fails). *)
Theorem gpu_enumerator_footprint (env : Env) (w : world) :
  timers (snd (getGpuTemperatures env w)) = timers w
  /\ (exists l, logs (snd (getGpuTemperatures env w)) = (logs w ++ l)%list
                /\ forallb diagnostic l = true)
  /\ clock (snd (getGpuTemperatures env w)) = clock w + gpu_ms env
  /\ calls (snd (getGpuTemperatures env w))
     = match si_graphics env with
       | Ok cs => (calls w + cliCalls cs)%nat
       | Throw _ => calls w
       end.
Proof. apply getGpuTemperatures_footprint. Qed.

(** ** The report of a tick *)

Lemma infos_app (a b : list log_entry) : infos (a ++ b) = (infos a ++ infos b)%list.
Proof. unfold infos. now rewrite filter_app, map_app. Qed.

Lemma errors_app (a b : list log_entry) : errors (a ++ b) = (errors a ++ errors b)%list.
Proof. unfold errors. now rewrite filter_app. Qed.

Lemma diagnostics_silent (l : list log_entry) :
  forallb diagnostic l = true -> infos l = [] /\ errors l = [].
Proof.
  induction l as [|[lv m] l IH]; [now split|].
  cbn [forallb]. intros H. apply andb_prop in H as [Hd Hl].
  destruct (IH Hl) as [Hi He]. unfold infos, errors in *. cbn [filter lvl].
  destruct lv; try discriminate; cbn; auto.
Qed.

Lemma info_lines (ms : list message) :
  infos (map (fun m => {| lvl := Info; msg := m |}) ms) = ms
  /\ errors (map (fun m => {| lvl := Info; msg := m |}) ms) = [].
Proof.
  induction ms as [|m ms [IHi IHe]]; [now split|].
  unfold infos, errors in *. cbn. now rewrite IHi, IHe.
Qed.

Lemma logGpu_lines (gpu : GpuTempInfo) (w : world) :
  logGpu gpu w
  = (Ok tt,
     {| clock := clock w; calls := calls w;
        logs := logs w ++ map (fun m => {| lvl := Info; msg := m |}) (gpu_line gpu);
        timers := timers w |}).
Proof.
  unfold logGpu, gpu_line. unfold_m.
  destruct (temperatureGpu gpu), (temperatureMemory gpu);
    cbn [clock calls logs timers map]; rewrite <- ?app_assoc; reflexivity.
Qed.

Lemma forEach_lines (gpus : list GpuTempInfo) :
  forall w,
    forEach gpus logGpu w
    = (Ok tt,
       {| clock := clock w; calls := calls w;
          logs := logs w ++ map (fun m => {| lvl := Info; msg := m |})
                              (flat_map gpu_line gpus);
          timers := timers w |}).
Proof.
  induction gpus as [|gpu gpus IH]; intros w; cbn [forEach flat_map map].
  - unfold ret. rewrite app_nil_r. now destruct w.
  - unfold bind. rewrite logGpu_lines, IH.
    cbn [clock calls logs timers]. now rewrite map_app, app_assoc.
Qed.

Lemma gpu_report (gpus : list GpuTempInfo) (w : world) :
  match gpus with
  | [] => logger Info (Text "No GPU controllers found")
  | _ => forEach gpus logGpu
  end w
  = (Ok tt,
     {| clock := clock w; calls := calls w;
        logs := logs w ++ map (fun m => {| lvl := Info; msg := m |}) (gpu_lines gpus);
        timers := timers w |}).
Proof.
  destruct gpus as [|gpu gpus]; [reflexivity|].
  now rewrite forEach_lines.
Qed.

Lemma logSysTemperatures_report (env : Env) (w : world) :
  exists cpuTemp w1 gpuTemps w2 w',
    getCpuTemperature env w = (Ok cpuTemp, w1)
    /\ getGpuTemperatures env (snd (logger Info (cpu_line cpuTemp) w1)) = (Ok gpuTemps, w2)
    /\ logSysTemperatures env w = (Ok tt, w')
    /\ infos (logs w') = (infos (logs w) ++ cpu_line cpuTemp :: gpu_lines gpuTemps)%list
    /\ errors (logs w') = errors (logs w)
    /\ timers w' = timers w
    /\ clock w' = clock w + busy env.
Proof.
  destruct (cpu_resolver_sound env w) as (cpuTemp & w1 & Hcpu & _).
  destruct (getCpuTemperature_runs env w) as ((Ht1 & _ & l1 & Hl1 & Hd1) & Hc1 & _).
  rewrite Hcpu in Ht1, Hl1, Hc1. cbn [snd] in Ht1, Hl1, Hc1.
  set (w1' := snd (logger Info (cpu_line cpuTemp) w1)).
  destruct (getGpuTemperatures_emitted env w1') as (gpuTemps & w2 & Hgpu & _).
  destruct (getGpuTemperatures_footprint env w1') as (Ht2 & (l2 & Hl2 & Hd2) & Hc2 & _).
  rewrite Hgpu in Ht2, Hl2, Hc2. cbn [snd] in Ht2, Hl2, Hc2.
  exists cpuTemp, w1, gpuTemps, w2. eexists.
  split; [exact Hcpu|]. split; [exact Hgpu|].
  assert (Hrun : logSysTemperatures env w
                 = (Ok tt,
                    {| clock := clock w2; calls := calls w2;
                       logs := logs w2 ++ map (fun m => {| lvl := Info; msg := m |})
                                            (gpu_lines gpuTemps);
                       timers := timers w2 |})).
  { unfold logSysTemperatures, bind. rewrite Hcpu.
    assert (Hline : (match cpuTemp with
                     | Some c => logger Info (CpuTemperature c)
                     | None => logger Info (Text "CPU temperature unavailable")
                     end) w1 = (Ok tt, w1')).
    { subst w1'. destruct cpuTemp; reflexivity. }
    rewrite Hline, Hgpu. apply gpu_report. }
  split; [exact Hrun|]. cbn [clock logs timers].
  destruct (diagnostics_silent l1 Hd1) as [Hi1 He1].
  destruct (diagnostics_silent l2 Hd2) as [Hi2 He2].
  destruct (info_lines (gpu_lines gpuTemps)) as [Hi3 He3].
  assert (Hlogs1 : logs w1' = (logs w ++ l1 ++ [ {| lvl := Info; msg := cpu_line cpuTemp |} ])%list).
  { subst w1'. cbn [logger snd logs]. now rewrite Hl1, <- app_assoc. }
  rewrite Hl2, Hlogs1.
  repeat split.
  - rewrite !infos_app, Hi1, Hi2, Hi3.
    change (infos [ {| lvl := Info; msg := cpu_line cpuTemp |} ]) with [cpu_line cpuTemp].
    cbn [app]. rewrite app_nil_r, <- app_assoc. reflexivity.
  - rewrite !errors_app, He1, He2, He3.
    change (errors [ {| lvl := Info; msg := cpu_line cpuTemp |} ]) with (@nil log_entry).
    cbn [app]. now rewrite !app_nil_r.
  - rewrite Ht2. subst w1'. cbn [logger snd timers]. exact Ht1.
  - rewrite Hc2. subst w1'. cbn [logger snd clock]. unfold busy. lia.
Qed.

(** X9: the job of a tick never throws and reports in a fixed shape.  At
    info level it logs one line for the CPU, the value or its absence, and
    then the lines for the GPUs: one line "No GPU controllers found" when
    the enumerator returned nothing, otherwise for each controller in order
    one line with model, value or absence and source, followed by one line
    for the memory temperature when there is one.  It logs nothing at error
    level and sets no timer. *)
Theorem tick_report (env : Env) (w : world) :
  exists cpuTemp w1 gpuTemps w2 w',
    getCpuTemperature env w = (Ok cpuTemp, w1)
    /\ getGpuTemperatures env (snd (logger Info (cpu_line cpuTemp) w1)) = (Ok gpuTemps, w2)
    /\ logSysTemperatures env w = (Ok tt, w')
    /\ infos (logs w') = (infos (logs w) ++ cpu_line cpuTemp :: gpu_lines gpuTemps)%list
    /\ errors (logs w') = errors (logs w)
    /\ timers w' = timers w.
Proof.
  destruct (logSysTemperatures_report env w)
    as (cpuTemp & w1 & gpuTemps & w2 & w' & H1 & H2 & H3 & H4 & H5 & H6 & _).
  exists cpuTemp, w1, gpuTemps, w2, w'. auto 10.
Qed.

(** ** The schedule of the loop *)

Lemma steady_tick (job : M unit) (w : world) :
  steady job ->
  exists w' l,
    tick job w = (Ok tt, w')
    /\ clock w + intervalMs <= clock w'
    /\ timers w' = (timers w ++ l)%list
    /\ Forall (fun d => 0 < d <= timer_limit) l.
Proof.
  intros Hjob. destruct (Hjob w) as [Htimers Hclock].
  destruct (guarded_job job w) as (w2 & Hrun & Hw2).
  assert (H2 : timers w2 = timers w /\ clock w - clock w2 <= timer_limit - intervalMs).
  { destruct (job w) as [[[]|e] w1]; cbn [snd] in Htimers, Hclock.
    - subst w2. auto.
    - destruct Hw2 as (Hc & Ht & _). rewrite Hc, Ht. auto. }
  destruct H2 as [Ht Hc].
  rewrite (tick_run job w w2 Hrun).
  destruct (Z.gtb_spec (intervalMs - (clock w2 - clock w)) 0) as [Hpos|Hneg].
  - eexists _, [_]. split; [reflexivity|]. cbn [clock timers].
    split; [lia|]. split; [now rewrite Ht|].
    constructor; [|constructor]. lia.
  - exists w2, []. split; [reflexivity|]. split; [lia|].
    split; [now rewrite app_nil_r | constructor].
Qed.

(** X10: the loop never polls faster than once per interval, whatever the
    jobs do (fail or take long), as long as they set no timer themselves
    and see the clock step back by no more than the longest timer allows
    for: after n ticks at least n intervals have passed, and every delay
    the loop has asked for is positive and not beyond the longest timer. *)
Theorem loop_rate_limit (jobs : list (M unit)) (w : world) :
  Forall steady jobs ->
  exists w' l,
    loop jobs w = (Ok tt, w')
    /\ clock w + Z.of_nat (List.length jobs) * intervalMs <= clock w'
    /\ timers w' = (timers w ++ l)%list
    /\ Forall (fun d => 0 < d <= timer_limit) l.
Proof.
  intros Hjobs. revert w. induction Hjobs as [|job jobs Hjob _ IH]; intros w.
  - exists w, []. split; [reflexivity|]. split; [cbn; lia|].
    split; [now rewrite app_nil_r | constructor].
  - destruct (steady_tick job w Hjob) as (w1 & l1 & Hrun & Hclock & Ht & Hl).
    destruct (IH w1) as (w' & l2 & Hrest & Hclock' & Ht' & Hl').
    exists w', (l1 ++ l2)%list. split; [|split; [|split]].
    + cbn [loop]. unfold bind. now rewrite Hrun.
    + cbn [List.length]. lia.
    + now rewrite Ht', Ht, app_assoc.
    + apply Forall_app. auto.
Qed.

(** The theorem at a job that fails after 5 ms and one that fails after
    40 s: the loop returns and at least two intervals have passed. *)
Lemma loop_rate_limit_witness :
  exists w' l,
    loop [failingJob 5; failingJob 40000] world0 = (Ok tt, w')
    /\ clock world0 + Z.of_nat (List.length [failingJob 5; failingJob 40000]) * intervalMs
       <= clock w'
    /\ timers w' = (timers world0 ++ l)%list
    /\ Forall (fun d => 0 < d <= timer_limit) l.
Proof.
  apply (loop_rate_limit [failingJob 5; failingJob 40000] world0).
  repeat constructor; cbn; unfold timer_limit, intervalMs; lia.
Defined.

Lemma report_tick (env : Env) (w : world) :
  exists w',
    tick (logSysTemperatures env) w = (Ok tt, w')
    /\ clock w' = clock w + Z.max intervalMs (busy env)
    /\ timers w' = (timers w ++ delay env)%list
    /\ errors (logs w') = errors (logs w).
Proof.
  destruct (logSysTemperatures_report env w)
    as (cpuTemp & w1 & gpuTemps & w2 & wj & _ & _ & Hjob & _ & Herr & Htimers & Hclock).
  assert (Hrun : try_catch (logSysTemperatures env)
                   (fun err => logger Error (WithError "Job failed" err)) w = (Ok tt, wj)).
  { unfold try_catch. now rewrite Hjob. }
  rewrite (tick_run _ w wj Hrun). unfold delay. rewrite Hclock.
  replace (intervalMs - (clock w + busy env - clock w)) with (intervalMs - busy env) by lia.
  destruct (Z.gtb_spec (intervalMs - busy env) 0) as [Hpos|Hneg].
  - eexists. split; [reflexivity|]. cbn [clock timers logs sleep].
    repeat split; try congruence. lia.
  - exists wj. split; [reflexivity|]. rewrite app_nil_r. repeat split; auto. lia.
Qed.

(** X11: the schedule of [main].  Every tick returns without an error
    entry; a tick whose resolution takes [busy] milliseconds is followed by
    the next one max(intervalMs, busy) later, and sets one timer of
    intervalMs - busy when that is positive and none otherwise. *)
Theorem main_schedule (envs : list Env) (w : world) :
  exists w',
    main envs w = (Ok tt, w')
    /\ clock w' = clock w + total (map (fun env => Z.max intervalMs (busy env)) envs)
    /\ timers w' = (timers w ++ flat_map delay envs)%list
    /\ errors (logs w') = errors (logs w).
Proof.
  unfold main. revert w. induction envs as [|env envs IH]; intros w.
  - exists w. cbn. rewrite app_nil_r. repeat split; auto. lia.
  - destruct (report_tick env w) as (w1 & Hrun & Hclock & Htimers & Herr).
    destruct (IH w1) as (w' & Hrest & Hclock' & Htimers' & Herr').
    exists w'. split.
    + cbn [map loop]. unfold bind. now rewrite Hrun.
    + cbn [map total fold_right flat_map]. fold (total (map (fun env => Z.max intervalMs (busy env)) envs)).
      rewrite Hclock', Htimers', Hclock, Htimers, Herr', Herr.
      repeat split; [lia | now rewrite app_assoc].
Qed.

(** ** The Windows chain *)

Lemma runs_calls {A} (m : M A) (ms : Z) (w : world) :
  runs m ms 0 -> calls (snd (m w)) = calls w.
Proof. intros H. destruct (H w) as ((_ & Hc & _) & _ & Hn). lia. Qed.

(** X13: the order of the Windows chain.  A value from the exported
    snapshot is returned without any subprocess being started; failing
    that, a value from the management-interface query is returned after
    that one subprocess, and the ACPI query is not run; only when both
    yield nothing is the ACPI query run, as the second subprocess. *)
Theorem windows_chain_order (env : Env) (w : world) :
  String.eqb (platform env) "win32" = true ->
  (forall v w1,
      lhmProbe env w = (Ok (Some v), w1) ->
      windowsChain env w = (Ok (Some v), w1) /\ calls w1 = calls w)
  /\ (forall v w1 w2,
         lhmProbe env w = (Ok None, w1) ->
         ohmProbe env w1 = (Ok (Some v), w2) ->
         windowsChain env w = (Ok (Some v), w2) /\ calls w2 = S (calls w))
  /\ (forall w1 w2,
         lhmProbe env w = (Ok None, w1) ->
         ohmProbe env w1 = (Ok None, w2) ->
         windowsChain env w = acpiProbe env w2
         /\ calls (snd (acpiProbe env w2)) = S (S (calls w))).
Proof.
  intros Hwin. unfold windowsChain. rewrite Hwin.
  assert (Hlhm : forall r w1, lhmProbe env w = (r, w1) -> calls w1 = calls w).
  { intros r w1 H. pose proof (runs_calls _ 0 w (lhmProbe_runs env)) as E.
    now rewrite H in E. }
  assert (Hohm : forall r w1 w2, ohmProbe env w1 = (r, w2) -> calls w2 = S (calls w1)).
  { intros r w1 w2 H. pose proof (proj1 (ohm_calls env w1)) as E. now rewrite H in E. }
  split; [|split].
  - intros v w1 H. split; [now apply orElse_some | now apply (Hlhm _ _ H)].
  - intros v w1 w2 H1 H2. split.
    + rewrite (orElse_none _ _ _ _ H1). now apply orElse_some.
    + rewrite (Hohm _ _ _ H2), (Hlhm _ _ H1). reflexivity.
  - intros w1 w2 H1 H2. split.
    + rewrite (orElse_none _ _ _ _ H1). now apply orElse_none.
    + rewrite (proj2 (ohm_calls env w2)), (Hohm _ _ _ H2), (Hlhm _ _ H1). reflexivity.
Qed.

(** With a snapshot at hand the queries are not run. *)
Lemma windows_chain_order_witness :
  windowsChain (windowsEnv (Some (Ok sampleSnapshot)) (Ok "70") (Ok "3281")) world0
  = (Ok (Some (of_Z 61)), world0)
  /\ calls world0 = calls world0.
Proof.
  apply (proj1 (windows_chain_order
                  (windowsEnv (Some (Ok sampleSnapshot)) (Ok "70") (Ok "3281"))
                  world0 eq_refl)).
  reflexivity.
Defined.

(** ** The snapshot's children *)

Lemma Forall2_in_left {A B} (R : A -> B -> Prop) (l : list A) (l' : list B) (x : A) :
  Forall2 R l l' -> In x l -> exists y, In y l' /\ R x y.
Proof.
  induction 1 as [|a b l l' Hab _ IH]; [contradiction|].
  intros [<-|Hin].
  - exists b. split; [now left | exact Hab].
  - destruct (IH Hin) as (y & Hy & Hxy). exists y. split; [now right | exact Hxy].
Qed.

Lemma Forall2_in_right {A B} (R : A -> B -> Prop) (l : list A) (l' : list B) (y : B) :
  Forall2 R l l' -> In y l' -> exists x, In x l /\ R x y.
Proof.
  induction 1 as [|a b l l' Hab _ IH]; [contradiction|].
  intros [<-|Hin].
  - exists a. split; [now left | exact Hab].
  - destruct (IH Hin) as (x & Hx & Hxy). exists x. split; [now right | exact Hxy].
Qed.

Lemma forallb_Forall2 {A} (f : A -> bool) (R : A -> A -> Prop) (l l' : list A) :
  (forall x y, In x l -> R x y -> f x = f y) ->
  Forall2 R l l' -> forallb f l = forallb f l'.
Proof.
  intros Hf H. induction H as [|a b l l' Hab _ IH]; [reflexivity|].
  cbn [forallb]. rewrite (Hf a b (or_introl eq_refl) Hab), IH; [reflexivity|].
  intros x y Hin. apply Hf. now right.
Qed.

Lemma forallb_perm {A} (f : A -> bool) (l l' : list A) :
  Permutation l l' -> forallb f l = forallb f l'.
Proof.
  induction 1 as [|a l l' _ IH|a b l|l l' l'' _ IH1 _ IH2]; cbn [forallb].
  - reflexivity.
  - now rewrite IH.
  - destruct (f a), (f b); reflexivity.
  - now rewrite IH1.
Qed.

Lemma reordered_inv (j j' : json) :
  reordered j j' ->
  j' = j
  \/ exists ms ms' cs cs' cs'',
      j = JObject ms /\ j' = JObject ms'
      /\ field "Text" ms' = field "Text" ms
      /\ field "Value" ms' = field "Value" ms
      /\ field "Children" ms = Some (JArray cs)
      /\ field "Children" ms' = Some (JArray cs'')
      /\ Forall2 reordered cs cs'
      /\ Permutation cs' cs''.
Proof.
  intros H. destruct H as [j|ms ms' cs cs' cs'' Ht Hv Hc Hc' Hall Hperm].
  - now left.
  - right. exists ms, ms', cs, cs', cs''. repeat split; assumption.
Qed.

Lemma reading_reordered (j j' : json) : reordered j j' -> reading j' = reading j.
Proof.
  intros H.
  destruct (reordered_inv j j' H)
    as [->|(ms & ms' & cs & cs' & cs'' & -> & -> & Ht & Hv & _)]; [reflexivity|].
  cbn [reading]. now rewrite Ht, Hv.
Qed.

(** A reading of the tree is a reading of the reordered tree. *)
Lemma node_of_reordered (j n : json) :
  node_of j n ->
  forall j', reordered j j' ->
    exists n', node_of j' n' /\ reading n' = reading n.
Proof.
  induction 1 as [j|ms cs child n Hc Hin Hn IH]; intros j' Hr.
  - exists j'. split; [constructor | now apply reading_reordered].
  - destruct (reordered_inv _ j' Hr)
      as [->|(ms0 & ms' & cs0 & cs' & cs'' & E & -> & _ & _ & Hc0 & Hc' & Hall & Hperm)].
    + exists n. split; [|reflexivity]. now apply (node_below ms cs child n).
    + inversion E; subst ms0. rewrite Hc in Hc0. inversion Hc0; subst cs0.
      destruct (Forall2_in_left _ _ _ child Hall Hin) as (child' & Hin' & Hrc).
      destruct (IH child' Hrc) as (n' & Hn' & Hread).
      exists n'. split; [|exact Hread].
      apply (node_below ms' cs'' child' n' Hc'); [|exact Hn'].
      now apply (Permutation_in child' Hperm).
Qed.

(** A reading of the reordered tree is a reading of the tree. *)
Lemma node_of_reordered_back (j' n' : json) :
  node_of j' n' ->
  forall j, reordered j j' ->
    exists n, node_of j n /\ reading n = reading n'.
Proof.
  induction 1 as [j'|ms' cs'' child' n' Hc' Hin' Hn' IH]; intros j Hr.
  - exists j. split; [constructor | symmetry; now apply reading_reordered].
  - destruct (reordered_inv j _ Hr)
      as [E|(ms & ms0 & cs & cs' & cs0 & -> & E & _ & _ & Hc & Hc0 & Hall & Hperm)].
    + subst j. exists n'. split; [|reflexivity].
      now apply (node_below ms' cs'' child' n').
    + inversion E; subst ms0. rewrite Hc' in Hc0. inversion Hc0; subst cs0.
      apply (Permutation_in child' (Permutation_sym Hperm)) in Hin'.
      destruct (Forall2_in_right _ _ _ child' Hall Hin') as (child & Hin & Hrc).
      destruct (IH child Hrc) as (n & Hn & Hread).
      exists n. split; [|exact Hread].
      now apply (node_below ms cs child n Hc).
Qed.

Lemma completes_reordered (room : nat) :
  forall j j', reordered j j' -> completes room j = completes room j'.
Proof.
  induction room as [|room IH]; intros j j' Hr; [reflexivity|].
  destruct (reordered_inv j j' Hr)
    as [->|(ms & ms' & cs & cs' & cs'' & -> & -> & Ht & Hv & Hc & Hc' & Hall & Hperm)];
    [reflexivity|].
  cbn [completes]. rewrite Ht, Hc, Hc'. f_equal.
  rewrite <- (forallb_perm (completes room) cs' cs'' Hperm).
  apply (forallb_Forall2 _ reordered); [|exact Hall].
  intros x y _. apply IH.
Qed.

Lemma max_readings_agree (j j' : json) (r r' : option number) :
  (forall n, node_of j n -> exists n', node_of j' n' /\ reading n' = reading n) ->
  (forall n', node_of j' n' -> exists n, node_of j n /\ reading n = reading n') ->
  match r with
  | Some v => is_max_reading j v
  | None => forall n, node_of j n -> reading n = None
  end ->
  match r' with
  | Some v => is_max_reading j' v
  | None => forall n, node_of j' n -> reading n = None
  end ->
  same_reading r r'.
Proof.
  intros Hto Hback Hr Hr'.
  destruct r as [v|], r' as [v'|]; cbn [same_reading]; auto.
  - destruct Hr as [(n & Hn & Hv) Hup], Hr' as [(n' & Hn' & Hv') Hup'].
    split.
    + destruct (Hto n Hn) as (m & Hm & E). apply (Hup' m v Hm). congruence.
    + destruct (Hback n' Hn') as (m & Hm & E). apply (Hup m v' Hm). congruence.
  - destruct Hr as [(n & Hn & Hv) _].
    destruct (Hto n Hn) as (m & Hm & E). rewrite (Hr' m Hm) in E. congruence.
  - destruct Hr' as [(n' & Hn' & Hv') _].
    destruct (Hback n' Hn') as (m & Hm & E). rewrite (Hr m Hm) in E. congruence.
Qed.

(** X14: the value selected from a snapshot does not depend on the order
    of the children of its nodes.  For a tree and the same tree with the
    children of any of its nodes in another order, the walk returns on both
    or throws on both, and when it returns it has selected nothing in both,
    or two numerically equal values. *)
Theorem snapshot_children_order (room : nat) (j j' : json) :
  reordered j j' ->
  ((exists r, walk room j None = Ok r) <-> (exists r', walk room j' None = Ok r'))
  /\ forall r r',
      walk room j None = Ok r -> walk room j' None = Ok r' -> same_reading r r'.
Proof.
  intros Hr. split.
  - rewrite !walk_completes. now rewrite (completes_reordered room j j' Hr).
  - intros r r' Hw Hw'.
    apply (max_readings_agree j j').
    + intros n Hn. now apply (node_of_reordered j n Hn).
    + intros n' Hn'. now apply (node_of_reordered_back j' n' Hn').
    + now apply (walk_max room).
    + now apply (walk_max room).
Qed.

(** The theorem at the sample snapshot and the same snapshot with the
    sensors of the CPU node in the opposite order. *)
Lemma snapshot_children_order_witness :
  ((exists r, walk 4000 sampleSnapshot None = Ok r)
   <-> (exists r', walk 4000 shuffledSnapshot None = Ok r'))
  /\ forall r r',
      walk 4000 sampleSnapshot None = Ok r -> walk 4000 shuffledSnapshot None = Ok r' ->
      same_reading r r'.
Proof.
  apply (snapshot_children_order 4000%nat sampleSnapshot shuffledSnapshot).
  eapply reordered_node;
    [reflexivity | reflexivity | reflexivity | reflexivity | | apply Permutation_refl].
  constructor; [|constructor].
  eapply reordered_node;
    [reflexivity | reflexivity | reflexivity | reflexivity | | ].
  - repeat constructor.
  - apply (Permutation_rev
             [ sensor "Core (Tctl/Tdie)" (Some {| jneg := false; jmant := 553; jexp := -1 |}) [];
               sensor "CCD1 (Tdie)" (Some {| jneg := false; jmant := 61; jexp := 0 |}) [];
               sensor "Fan #1" (Some {| jneg := false; jmant := 1200; jexp := 0 |}) [] ]).
Defined.

(** ** The elements of the GPU enumerator *)

Lemma numeric_number (x : option number) (t : number) :
  numeric x = Some t -> isNaN t = false.
Proof.
  unfold numeric. destruct x as [n|]; [|discriminate].
  destruct (isNaN n) eqn:E; cbn [negb]; [discriminate|].
  intros H. inversion H; subst. exact E.
Qed.

Lemma cliReading_number (o : outcome string) (t : number) :
  cliReading o = Some t -> isNaN t = false.
Proof.
  unfold cliReading. destruct o as [out|e]; [|discriminate].
  destruct (isNaN (parseInt (split_first (trim out)))) eqn:E; [discriminate|].
  intros H. inversion H; subst. exact E.
Qed.

Lemma label_not_empty (a b : string) :
  is_empty (or_string a (or_string b "Unknown GPU")) = false.
Proof. destruct a; [destruct b|]; reflexivity. Qed.

Lemma emitted_wellformed (env : Env) (c : Si.controller) (info : GpuTempInfo) :
  emitted env c info -> wellformed info.
Proof.
  intros (w & w' & [Hwant|t w1 Hwant Hcli Hcalls Hlogs|w1 Hwant Hcli Hcalls]);
    unfold wellformed; cbn [libraryInfo cliInfo model temperatureGpu temperatureMemory];
    (split; [apply label_not_empty|]); split; intros t' Ht;
    try (now apply numeric_number in Ht).
  inversion Ht; subst. now apply cliReading_number in Hcli.
Qed.

(** X15: every element the GPU enumerator returns is well formed: its
    model label is never empty (the model, else the vendor, else the
    placeholder), and neither temperature is ever NaN, whether it comes
    from the library or from the vendor CLI. *)
Theorem gpu_elements_wellformed (env : Env) (w : world) :
  exists res w', getGpuTemperatures env w = (Ok res, w') /\ Forall wellformed res.
Proof.
  destruct (getGpuTemperatures_emitted env w) as (res & w' & Hrun & Hspec).
  exists res, w'. split; [exact Hrun|]. clear Hrun.
  destruct (si_graphics env) as [cs|e].
  - induction Hspec as [|c info cs res Hem _ IH]; constructor; auto.
    now apply (emitted_wellformed env c).
  - destruct Hspec as [-> _]. constructor.
Qed.
